(** * Sprout: verification of the diff parser (src/utils/diff_parser.py)

    The development embeds [DiffParser] shallowly.  A Python [str] is a
    sequence of Unicode code points, so a string is a [list N]; the string
    methods and the three regular expressions the parser relies on are written
    out as list functions, each next to a declarative description of what the
    Python operation computes. *)

From Stdlib Require Import List NArith Bool Arith Lia Ascii String DecimalString.
From Equations Require Import Equations.
Import ListNotations.

(** ** Python strings *)

Definition char := N.
Definition str := list char.

(** An ASCII literal of the source, as code points. *)
Definition lit (s : string) : str := map N_of_ascii (list_ascii_of_string s).

(** ['\n'] *)
Definition nl : char := 10%N.

(** The double quote. *)
Definition quote : char := 34%N.

(** [str.isspace] on one code point; [str.strip()] and the regex class [\s]
    (on a [str] pattern) use the same table, CPython's
    [_PyUnicode_IsWhitespace]. *)
Definition isspace (c : char) : bool :=
  ((9 <=? c) && (c <=? 13) || (28 <=? c) && (c <=? 32)
   || (c =? 133) || (c =? 160) || (c =? 5760)
   || (8192 <=? c) && (c <=? 8202)
   || (c =? 8232) || (c =? 8233) || (c =? 8239) || (c =? 8287)
   || (c =? 12288))%N.

Fixpoint dropwhile (p : char -> bool) (s : str) : str :=
  match s with
  | c :: s' => if p c then dropwhile p s' else s
  | [] => []
  end.

(** [s.lstrip()], [s.rstrip()], [s.strip()] *)
Definition lstrip (s : str) : str := dropwhile isspace s.
Definition rstrip (s : str) : str := rev (dropwhile isspace (rev s)).
Definition strip (s : str) : str := rstrip (lstrip s).

(** Truth value of a string: [if s:] holds of the non-empty ones. *)
Definition truthy (s : str) : bool :=
  match s with [] => false | _ :: _ => true end.

(** [s.startswith(p)] *)
Fixpoint startswith (s p : str) : bool :=
  match p, s with
  | [], _ => true
  | a :: p', b :: s' => (a =? b)%N && startswith s' p'
  | _ :: _, [] => false
  end.

(** [s.split('\n')]: the pieces between the newlines, one more than there are
    newlines. *)
Fixpoint split_lines (s : str) : list str :=
  match s with
  | [] => [[]]
  | c :: s' =>
      if (c =? nl)%N then [] :: split_lines s'
      else match split_lines s' with
           | l :: ls => (c :: l) :: ls
           | [] => [[c]]
           end
  end.

(** [str(n)] for a length: decimal digits, no sign, no leading zero. *)
Definition str_of_nat (n : nat) : str := lit (NilZero.string_of_uint (Nat.to_uint n)).

(** ** [DiffParser._extract_changes] *)

(** One turn of the loop over the lines; the state is the pair of lists the
    source appends to. *)
Definition changes_step (st : list str * list str) (line : str)
  : list str * list str :=
  let '(additions, deletions) := st in
  if startswith line (lit "+++") || startswith line (lit "---") then st
  else if startswith line (lit "@@") then st
  else if startswith line (lit "+") then (additions ++ [strip (skipn 1 line)], deletions)
  else if startswith line (lit "-") then (additions, deletions ++ [strip (skipn 1 line)])
  else st.

Definition _extract_changes (file_diff : str) : list str * list str :=
  fold_left changes_step (split_lines file_diff) ([], []).

(** ** Regular expressions

    [re.search] tries the pattern at every start position, from the left, and
    returns the first match; the functions below give group 1 of a match
    anchored at the head of their argument. *)

Fixpoint re_search (anchored : str -> option str) (s : str) : option str :=
  match anchored s with
  | Some g => Some g
  | None => match s with
            | _ :: s' => re_search anchored s'
            | [] => None
            end
  end.

(** The class [.]: any character but the newline. *)
Definition dot (c : char) : bool := negb (c =? nl)%N.

(** [\s+b/] at the head of [s].  The greedy [\s+] takes the whole run of
    white space; giving characters back cannot help, as the next one would
    again be white space and not [b]. *)
Definition ws_then_b (s : str) : bool :=
  match s with
  | c :: s' => isspace c && startswith (dropwhile isspace s') (lit "b/")
  | [] => false
  end.

(** [(.*?)\s+b/] at the head of [s]: the lazy group grows one character at a
    time, never over a newline, until the rest of the pattern matches. *)
Fixpoint lazy_path (s : str) : option str :=
  if ws_then_b s then Some []
  else match s with
       | c :: s' => if dot c then option_map (cons c) (lazy_path s') else None
       | [] => None
       end.

(** [a/(.*?)\s+b/] at the head of [s]. *)
Definition match_header (s : str) : option str :=
  if startswith s (lit "a/") then lazy_path (skipn 2 s) else None.

Fixpoint takewhile (p : char -> bool) (s : str) : str :=
  match s with
  | c :: s' => if p c then c :: takewhile p s' else []
  | [] => []
  end.

(** The second pattern, the literal [+++ b/] and then a greedy group of any
    characters but newline, at the head of [s]: the group runs to the end of
    the line. *)
Definition match_marker (s : str) : option str :=
  if startswith s (lit "+++ b/")
  then Some (takewhile dot (skipn 6 s))
  else None.

(** ** [DiffParser._extract_file_path] *)

Definition _extract_file_path (file_diff : str) : str :=
  match re_search match_header file_diff with
  | Some g1 => g1
  | None =>
      match re_search match_marker file_diff with
      | Some g1 => strip g1
      | None => []
      end
  end.

(** ** [re.split(r'\ndiff --git', diff_text)] *)

Definition boundary : str := nl :: lit "diff --git".

(** Leftmost occurrence of [pat] in [s]: the text before it and the text
    after it. *)
Fixpoint find_sub (pat s : str) : option (str * str) :=
  if startswith s pat then Some ([], skipn (List.length pat) s)
  else match s with
       | c :: s' =>
           match find_sub pat s' with
           | Some (b, a) => Some (c :: b, a)
           | None => None
           end
       | [] => None
       end.

(** A value together with the equation that names it, for the recursion
    below to know where [a] comes from. *)
Definition inspect {A} (a : A) : {b : A | a = b} := exist _ a eq_refl.

(** The split: cut at the leftmost match, then split what follows it. *)
Equations? re_split (s : str) : list str by wf (List.length s) lt :=
  re_split s with inspect (find_sub boundary s) => {
    | exist _ (Some (b, a)) _ := b :: re_split a;
    | exist _ None _ := [s] }.
Proof.
  clear re_split.
  assert (G : forall pat t b' a', find_sub pat t = Some (b', a') ->
                List.length a' + List.length pat <= List.length t).
  { intros pat. induction t as [|c t IH]; intros b' a' E; cbn [find_sub] in E.
    - destruct pat; [injection E as _ <-; cbn; lia | discriminate E].
    - destruct (startswith (c :: t) pat) eqn:P.
      + injection E as _ <-. rewrite length_skipn.
        enough (List.length pat <= List.length (c :: t)) by lia.
        clear -P. revert P. generalize (c :: t).
        induction pat as [|x pat IHp]; intros [|y u]; cbn; try lia; try discriminate.
        intros [_ P]%andb_prop. specialize (IHp _ P). lia.
      + destruct (find_sub pat t) as [[b1 a1]|]; [|discriminate E].
        injection E as _ <-. specialize (IH _ _ eq_refl). cbn. lia. }
  match goal with E : find_sub boundary _ = Some _ |- _ => apply G in E; cbn in E; lia end.
Qed.

(** ** [DiffParser.parse_diff] *)

(** The dictionary the source builds for a file; its six keys are fixed. *)
Record FileChange := {
  file_path : str;
  additions : list str;
  deletions : list str;
  addition_count : nat;
  deletion_count : nat;
  change_summary : str
}.

(** One turn of the loop over the chunks; [continue] leaves the list as it
    is. *)
Definition parse_step (parsed_files : list FileChange) (file_diff : str)
  : list FileChange :=
  if negb (truthy (strip file_diff)) then parsed_files
  else
    let file_path := _extract_file_path file_diff in
    if negb (truthy file_path) then parsed_files
    else
      let '(additions, deletions) := _extract_changes file_diff in
      parsed_files ++
        [ {| file_path := file_path;
             additions := additions;
             deletions := deletions;
             addition_count := List.length additions;
             deletion_count := List.length deletions;
             change_summary :=
               lit "+" ++ str_of_nat (List.length additions) ++ lit ", -"
                 ++ str_of_nat (List.length deletions) |} ].

Definition parse_diff (diff_text : str) : list FileChange :=
  if negb (truthy diff_text) || negb (truthy (strip diff_text)) then []
  else fold_left parse_step (re_split diff_text) [].

(** ** [DiffParser.get_summary] *)

(** [sum(...)]: starts from 0 and adds the items from the left. *)
Definition py_sum (l : list nat) : nat := fold_left Nat.add l 0.

Definition get_summary (diff_text : str) : str :=
  let parsed := parse_diff diff_text in
  match parsed with
  | [] => lit "No changes detected"
  | _ :: _ =>
      let total_additions := py_sum (map addition_count parsed) in
      let total_deletions := py_sum (map deletion_count parsed) in
      let file_count := List.length parsed in
      str_of_nat file_count ++ lit " file(s) changed: "
        ++ str_of_nat total_additions ++ lit " addition(s), "
        ++ str_of_nat total_deletions ++ lit " deletion(s)"
  end.

(** ** The reading of a line, in the order the specification gives it *)

Inductive line_class :=
| Ignored
| Addition (text : str)
| Deletion (text : str).

(** File markers first, then hunk headers, then the two change prefixes;
    anything else is context. *)
Definition classify (line : str) : line_class :=
  if startswith line (lit "+++") || startswith line (lit "---") then Ignored
  else if startswith line (lit "@@") then Ignored
  else if startswith line (lit "+") then Addition (strip (tl line))
  else if startswith line (lit "-") then Deletion (strip (tl line))
  else Ignored.

Definition added (line : str) : list str :=
  match classify line with Addition t => [t] | _ => [] end.

Definition deleted (line : str) : list str :=
  match classify line with Deletion t => [t] | _ => [] end.

(** The lines of a section that count as additions and as deletions. *)
Definition section_additions (sec : str) : list str := flat_map added (split_lines sec).
Definition section_deletions (sec : str) : list str := flat_map deleted (split_lines sec).

(** [sep.join(l)] *)
Fixpoint join (sep : str) (l : list str) : str :=
  match l with
  | [] => []
  | x :: l' => match l' with [] => x | _ :: _ => x ++ sep ++ join sep l' end
  end.

(** [pat] occurs in [s]. *)
Definition occurs (pat s : str) : Prop := exists pre post, s = pre ++ pat ++ post.

(** ** What the two path patterns look for *)

(** The first pattern matches in [sec] right after [pre], with [p] in its
    group: [a/], the path on one line, white space, [b/]. *)
Definition HeaderAt (sec pre p : str) : Prop :=
  exists ws post,
    sec = pre ++ lit "a/" ++ p ++ ws ++ lit "b/" ++ post
    /\ forallb dot p = true /\ ws <> [] /\ forallb isspace ws = true.

(** The match [re.search] reports: the leftmost start, and there the shortest
    group. *)
Definition FirstHeader (sec p : str) : Prop :=
  exists pre,
    HeaderAt sec pre p /\
    forall pre' p', HeaderAt sec pre' p' ->
      List.length pre < List.length pre'
      \/ (List.length pre = List.length pre' /\ List.length p <= List.length p').

(** The second pattern matches in [sec] right after [pre], with [p] in its
    group: [+++ b/] and the rest of that line. *)
Definition MarkerAt (sec pre p : str) : Prop :=
  exists post,
    sec = pre ++ lit "+++ b/" ++ p ++ post
    /\ forallb dot p = true /\ (post = [] \/ exists post', post = nl :: post').

Definition FirstMarker (sec p : str) : Prop :=
  exists pre,
    MarkerAt sec pre p /\
    forall pre' p', MarkerAt sec pre' p' -> List.length pre <= List.length pre'.

(** ** What one section contributes to the result *)

Definition record_of (sec : str) : FileChange :=
  {| file_path := _extract_file_path sec;
     additions := section_additions sec;
     deletions := section_deletions sec;
     addition_count := List.length (section_additions sec);
     deletion_count := List.length (section_deletions sec);
     change_summary :=
       lit "+" ++ str_of_nat (List.length (section_additions sec)) ++ lit ", -"
         ++ str_of_nat (List.length (section_deletions sec)) |}.

(** A record when the section is not blank and a path is found in it, and
    nothing otherwise. *)
Definition section_record (sec : str) : list FileChange :=
  if truthy (strip sec) && truthy (_extract_file_path sec) then [record_of sec] else [].

(** ** The second path pattern as the specification words it

    A line that begins with [+++ b/]; what follows [b/] on that line,
    trimmed. *)
Fixpoint first_marker_line (lines : list str) : option str :=
  match lines with
  | [] => None
  | l :: ls =>
      if startswith l (lit "+++ b/") then Some (strip (skipn 6 l))
      else first_marker_line ls
  end.

Definition spec_extract_file_path (sec : str) : str :=
  match re_search match_header sec with
  | Some p => p
  | None =>
      match first_marker_line (split_lines sec) with
      | Some p => p
      | None => []
      end
  end.

(** ** The parser with Python's exceptions written out

    The same three methods once more, this time with every operation that can
    raise on well-typed data returning a [result]: [m.group(1)] on the [None]
    that [re.search] gives when nothing matches, a subscript [d[k]] on a
    dictionary without the key, and [sum] over values that are not numbers. *)
Module Raising.

Inductive exn := AttributeError | KeyError | TypeError.

Inductive result (A : Type) :=
| Ok (a : A)
| Raise (e : exn).
Arguments Ok {A} a.
Arguments Raise {A} e.

Definition bind {A B : Type} (m : result A) (k : A -> result B) : result B :=
  match m with
  | Ok a => k a
  | Raise e => Raise e
  end.

Notation "x <- m ;; k" := (bind m (fun x => k))
  (at level 61, m at next level, right associativity).

(** A match object, as far as the parser looks into it. *)
Record Match := { group1 : str }.

Definition search (anchored : str -> option str) (s : str) : option Match :=
  option_map (fun g => {| group1 := g |}) (re_search anchored s).

(** [if match:] *)
Definition found (m : option Match) : bool :=
  match m with Some _ => true | None => false end.

(** [match.group(1)] *)
Definition group (m : option Match) : result str :=
  match m with
  | Some m => Ok (group1 m)
  | None => Raise AttributeError
  end.

Inductive value :=
| VStr (s : str)
| VList (l : list str)
| VInt (n : nat).

(** A dictionary with string keys, in insertion order. *)
Definition dict := list (string * value).

(** [d[k]] *)
Fixpoint getitem (d : dict) (k : string) : result value :=
  match d with
  | [] => Raise KeyError
  | (k', v) :: d' => if String.eqb k k' then Ok v else getitem d' k
  end.

(** [0 + v], the only use [sum] makes of an item. *)
Definition to_int (v : value) : result nat :=
  match v with
  | VInt n => Ok n
  | _ => Raise TypeError
  end.

Definition _extract_file_path (file_diff : str) : result str :=
  let m := search match_header file_diff in
  if found m then group m
  else
    let m := search match_marker file_diff in
    if found m then g <- group m ;; Ok (strip g)
    else Ok [].

Definition parse_step (parsed_files : list dict) (file_diff : str)
  : result (list dict) :=
  if negb (truthy (strip file_diff)) then Ok parsed_files
  else
    file_path <- _extract_file_path file_diff ;;
    if negb (truthy file_path) then Ok parsed_files
    else
      let '(additions, deletions) := _extract_changes file_diff in
      Ok (parsed_files ++
            [ [ ("file_path"%string, VStr file_path);
                ("additions"%string, VList additions);
                ("deletions"%string, VList deletions);
                ("addition_count"%string, VInt (List.length additions));
                ("deletion_count"%string, VInt (List.length deletions));
                ("change_summary"%string,
                  VStr (lit "+" ++ str_of_nat (List.length additions) ++ lit ", -"
                          ++ str_of_nat (List.length deletions))) ] ]).

(** A [for] loop whose body may raise. *)
Fixpoint for_each {A S : Type} (body : S -> A -> result S) (l : list A) (st : S)
  : result S :=
  match l with
  | [] => Ok st
  | x :: l' => st' <- body st x ;; for_each body l' st'
  end.

Definition parse_diff (diff_text : str) : result (list dict) :=
  if negb (truthy diff_text) || negb (truthy (strip diff_text)) then Ok []
  else for_each parse_step (re_split diff_text) [].

(** [sum(f[k] for f in parsed)] *)
Definition sum_of (k : string) (parsed : list dict) : result nat :=
  for_each (fun total f => v <- getitem f k ;; n <- to_int v ;; Ok (total + n))
    parsed 0.

Definition get_summary (diff_text : str) : result str :=
  parsed <- parse_diff diff_text ;;
  match parsed with
  | [] => Ok (lit "No changes detected")
  | _ :: _ =>
      total_additions <- sum_of "addition_count" parsed ;;
      total_deletions <- sum_of "deletion_count" parsed ;;
      let file_count := List.length parsed in
      Ok (str_of_nat file_count ++ lit " file(s) changed: "
            ++ str_of_nat total_additions ++ lit " addition(s), "
            ++ str_of_nat total_deletions ++ lit " deletion(s)")
  end.

End Raising.

(** The dictionary a record stands for. *)
Definition to_dict (r : FileChange) : Raising.dict :=
  [ ("file_path"%string, Raising.VStr (file_path r));
    ("additions"%string, Raising.VList (additions r));
    ("deletions"%string, Raising.VList (deletions r));
    ("addition_count"%string, Raising.VInt (addition_count r));
    ("deletion_count"%string, Raising.VInt (deletion_count r));
    ("change_summary"%string, Raising.VStr (change_summary r)) ].

(** The sections that are kept: those in which a path is found. *)
Definition emitted_sections (diff_text : str) : list str :=
  filter (fun sec => truthy (_extract_file_path sec)) (re_split diff_text).

(** A body line that records a change: it begins with [+] or [-] and is not
    a file marker. *)
Definition change_line (l : str) : bool :=
  startswith l (lit "+") && negb (startswith l (lit "+++"))
  || startswith l (lit "-") && negb (startswith l (lit "---")).

(** A path as it stands in a header: on one line and without white space. *)
Definition plain_path (p : str) : bool :=
  forallb (fun c => dot c && negb (isspace c)) p.

(** ** The sample of the source's self-test *)

Definition unlines (ls : list str) : str :=
  flat_map (fun l => l ++ [nl]) ls.

Definition sample_diff : str :=
  unlines
    [ lit "diff --git a/src/main.py b/src/main.py";
      lit "index 1234567..abcdefg 100644";
      lit "--- a/src/main.py";
      lit "+++ b/src/main.py";
      lit "@@ -1,3 +1,4 @@";
      lit " def hello():";
      lit "-    print(" ++ [quote] ++ lit "old" ++ [quote] ++ lit ")";
      lit "+    print(" ++ [quote] ++ lit "new" ++ [quote] ++ lit ")";
      lit "+    return True" ].

(** What [diff -r a b] prints for a file that differs: normal format. *)
Definition normal_diff : str :=
  unlines
    [ lit "diff -r a/x.py b/x.py";
      lit "1c1";
      lit "< old";
      lit "---";
      lit "> new" ].

(** A binary file: a header, and no line that begins with [+] or [-]. *)
Definition binary_diff : str :=
  unlines
    [ lit "diff --git a/logo.png b/logo.png";
      lit "index 1234567..abcdefg 100644";
      lit "Binary files a/logo.png and b/logo.png differ" ].

(** Two files, the second after the boundary. *)
Definition first_section : str :=
  lit "diff --git a/x.py b/x.py" ++ [nl] ++ lit "+foo".

Definition second_section : str :=
  lit " a/y.py b/y.py" ++ [nl] ++ lit "-bar" ++ [nl].

(** ** [GitHandler.get_all_changes] (src/core/git_handler.py)

    [staged] and [unstaged] are what [get_staged_changes()] and
    [get_unstaged_changes()] returned, the two texts git gave. *)
Definition get_all_changes (staged unstaged : str) : str :=
  if truthy staged && truthy unstaged then staged ++ [nl; nl] ++ unstaged
  else if truthy staged then staged else unstaged.


(** An unstaged diff as git prints it, without the newline at its end. *)
Definition unstaged_sample : str :=
  lit "diff --git a/y.py b/y.py" ++ [nl] ++ lit "-bar".

(** The lines of the sections, counted together. *)
Definition lines_of (secs : list str) : nat :=
  list_sum (map (fun sec => List.length (split_lines sec)) secs).

(** * The definitions at work *)

Example ex_sample_summary :
  get_summary sample_diff = lit "1 file(s) changed: 2 addition(s), 1 deletion(s)".
Proof. vm_compute. reflexivity. Qed.

Example ex_sample_parse :
  parse_diff sample_diff
  = [ {| file_path := lit "src/main.py";
         additions := [lit "print(" ++ [quote] ++ lit "new" ++ [quote] ++ lit ")";
                       lit "return True"];
         deletions := [lit "print(" ++ [quote] ++ lit "old" ++ [quote] ++ lit ")"];
         addition_count := 2;
         deletion_count := 1;
         change_summary := lit "+2, -1" |} ].
Proof. vm_compute. reflexivity. Qed.

Example ex_marker_only :
  _extract_file_path (lit "--- a/README.md" ++ [nl] ++ lit "+++ b/README.md" ++ [nl])
  = lit "README.md".
Proof. vm_compute. reflexivity. Qed.

Example ex_empty_header_path :
  _extract_file_path (lit "a/ b/" ++ [nl] ++ lit "+++ b/z") = [].
Proof. vm_compute. reflexivity. Qed.

Example ex_raising_sample :
  Raising.get_summary sample_diff
  = Raising.Ok (lit "1 file(s) changed: 2 addition(s), 1 deletion(s)").
Proof. vm_compute. reflexivity. Qed.

Example ex_changes :
  _extract_changes (lit "+++ b/a.py" ++ [nl] ++ lit "+  x = 1 " ++ [nl] ++ lit "-y" ++ [nl] ++ lit " z")
  = ([lit "x = 1"], [lit "y"]).
Proof. reflexivity. Qed.

Example ex_nat : str_of_nat 0 = lit "0" /\ str_of_nat 120 = lit "120".
Proof. split; reflexivity. Qed.

(** * Facts about the string operations *)

Section StringFacts.

Lemma startswith_iff (p s : str) :
  startswith s p = true <-> exists r, s = p ++ r.
Proof.
  revert s. induction p as [|a p IH]; intros [|b s]; cbn.
  - split; [exists []; reflexivity | reflexivity].
  - split; [exists (b :: s); reflexivity | reflexivity].
  - split; [discriminate | intros [r E]; discriminate E].
  - rewrite andb_true_iff, N.eqb_eq, IH. split.
    + intros [-> [r ->]]. exists r. reflexivity.
    + intros [r E]. injection E as -> ->. split; [reflexivity | exists r; reflexivity].
Qed.

Lemma startswith_app (p r : str) : startswith (p ++ r) p = true.
Proof. apply startswith_iff. exists r. reflexivity. Qed.

Lemma startswith_length (p s : str) :
  startswith s p = true -> List.length p <= List.length s.
Proof.
  intros [r ->]%startswith_iff. rewrite length_app. lia.
Qed.

Variable p : char -> bool.

Lemma takewhile_dropwhile (s : str) : takewhile p s ++ dropwhile p s = s.
Proof.
  induction s as [|c s IH]; cbn; [reflexivity|].
  destruct (p c); cbn; [rewrite IH|]; reflexivity.
Qed.

Lemma takewhile_all (s : str) : forallb p (takewhile p s) = true.
Proof.
  induction s as [|c s IH]; cbn; [reflexivity|].
  destruct (p c) eqn:E; cbn; [rewrite E, IH|]; reflexivity.
Qed.

Lemma dropwhile_head (s : str) :
  dropwhile p s = [] \/ exists c r, dropwhile p s = c :: r /\ p c = false.
Proof.
  induction s as [|c s IH]; cbn; [left; reflexivity|].
  destruct (p c) eqn:E; [exact IH|]. right. exists c, s. split; [reflexivity | exact E].
Qed.

Lemma dropwhile_nil_iff (s : str) : dropwhile p s = [] <-> forallb p s = true.
Proof.
  induction s as [|c s IH]; cbn; [tauto|].
  destruct (p c); cbn; [exact IH|]. split; discriminate.
Qed.

Lemma dropwhile_app_all (w r : str) :
  forallb p w = true -> dropwhile p (w ++ r) = dropwhile p r.
Proof.
  induction w as [|c w IH]; cbn; [reflexivity|].
  intros [-> H]%andb_prop. apply IH, H.
Qed.

Lemma dropwhile_stop (c : char) (r : str) : p c = false -> dropwhile p (c :: r) = c :: r.
Proof. cbn. intros ->. reflexivity. Qed.

Lemma takewhile_app_stop (w : str) (c : char) (r : str) :
  forallb p w = true -> p c = false -> takewhile p (w ++ c :: r) = w.
Proof.
  intros W C. induction w as [|d w IH]; cbn.
  - rewrite C. reflexivity.
  - cbn in W. apply andb_prop in W as [-> W]. rewrite (IH W). reflexivity.
Qed.

Lemma takewhile_whole (w : str) : forallb p w = true -> takewhile p w = w.
Proof.
  induction w as [|d w IH]; cbn; [reflexivity|].
  intros [-> W]%andb_prop. rewrite (IH W). reflexivity.
Qed.

End StringFacts.

Lemma forallb_rev (p : char -> bool) (s : str) : forallb p (rev s) = forallb p s.
Proof.
  induction s as [|c s IH]; cbn; [reflexivity|].
  rewrite forallb_app, IH. cbn. rewrite andb_true_r. apply andb_comm.
Qed.

(** [s.strip()] is empty exactly when [s] is white space throughout. *)
Lemma strip_nil_iff (s : str) : strip s = [] <-> forallb isspace s = true.
Proof.
  unfold strip, rstrip, lstrip. split.
  - intros H. apply (f_equal (@rev char)) in H. rewrite rev_involutive in H. cbn in H.
    apply dropwhile_nil_iff in H. rewrite forallb_rev in H.
    destruct (dropwhile_head isspace s) as [E | (c & r & E & C)].
    + apply dropwhile_nil_iff, E.
    + rewrite E in H. cbn in H. rewrite C in H. discriminate H.
  - intros H. apply dropwhile_nil_iff in H. rewrite H. reflexivity.
Qed.

Lemma truthy_false_iff (s : str) : truthy s = false <-> s = [].
Proof. destruct s; cbn; split; congruence. Qed.

Lemma truthy_true_iff (s : str) : truthy s = true <-> s <> [].
Proof. destruct s; cbn; split; congruence. Qed.


(** * Lines and their classification *)

Lemma split_lines_nonempty (s : str) : split_lines s <> [].
Proof.
  destruct s as [|c s]; cbn [split_lines]; [discriminate|].
  destruct (c =? nl)%N; [discriminate|]. destruct (split_lines s); discriminate.
Qed.

Lemma split_lines_join (s : str) : join [nl] (split_lines s) = s.
Proof.
  induction s as [|c s IH]; [reflexivity|].
  cbn [split_lines]. pose proof (split_lines_nonempty s) as NE.
  destruct (split_lines s) as [|l ls]; [congruence|].
  destruct (c =? nl)%N eqn:E.
  - apply N.eqb_eq in E. subst c. cbn [join]. cbn [join] in IH. rewrite IH. reflexivity.
  - cbn [join] in *. destruct ls; rewrite <- IH; reflexivity.
Qed.

Lemma split_lines_no_newline (s : str) :
  Forall (fun l => ~ In nl l) (split_lines s).
Proof.
  induction s as [|c s IH]; cbn [split_lines].
  - constructor; [intros []|constructor].
  - destruct (c =? nl)%N eqn:E.
    + constructor; [intros []|exact IH].
    + destruct (split_lines s) as [|l ls]; constructor.
      * intros [->|[]]. rewrite N.eqb_refl in E. discriminate E.
      * constructor.
      * inversion IH as [|? ? Hl Hls]; subst. intros [->|H]; [|exact (Hl H)].
        rewrite N.eqb_refl in E. discriminate E.
      * inversion IH; assumption.
Qed.

(** One turn of the loop appends what [classify] says of the line. *)
Lemma changes_step_classify (A D : list str) (line : str) :
  changes_step (A, D) line = (A ++ added line, D ++ deleted line).
Proof.
  unfold changes_step, added, deleted, classify.
  destruct (startswith line (lit "+++") || startswith line (lit "---"));
    [rewrite !app_nil_r; reflexivity|].
  destruct (startswith line (lit "@@")); [rewrite !app_nil_r; reflexivity|].
  destruct (startswith line (lit "+")); [rewrite app_nil_r; destruct line; reflexivity|].
  destruct (startswith line (lit "-")); rewrite ?app_nil_r; destruct line; reflexivity.
Qed.

Lemma changes_fold (ls : list str) (A D : list str) :
  fold_left changes_step ls (A, D)
  = (A ++ flat_map added ls, D ++ flat_map deleted ls).
Proof.
  revert A D. induction ls as [|l ls IH]; intros A D; cbn [fold_left flat_map].
  - rewrite !app_nil_r. reflexivity.
  - rewrite changes_step_classify, IH, <- !app_assoc. reflexivity.
Qed.

Lemma extract_changes_classify (sec : str) :
  _extract_changes sec = (section_additions sec, section_deletions sec).
Proof. unfold _extract_changes. rewrite changes_fold. reflexivity. Qed.

(** * Splitting at the section boundary *)

Lemma re_split_eq (s : str) :
  re_split s = match find_sub boundary s with
               | Some (b, a) => b :: re_split a
               | None => [s]
               end.
Proof.
  rewrite re_split_equation_1. unfold inspect.
  enough (G : forall x : {o : option (str * str) | find_sub boundary s = o},
             re_split_unfold_clause_1 s x
             = match proj1_sig x with
               | Some (b, a) => b :: re_split a
               | None => [s]
               end) by apply G.
  intros [[[b a]|] e]; reflexivity.
Qed.

Lemma skipn_length_app (p r : str) : skipn (List.length p) (p ++ r) = r.
Proof. induction p as [|c p IH]; [reflexivity | exact IH]. Qed.

Lemma find_sub_eq (pat s : str) :
  find_sub pat s =
  if startswith s pat then Some ([], skipn (List.length pat) s)
  else match s with
       | c :: s' => match find_sub pat s' with
                    | Some (b, a) => Some (c :: b, a)
                    | None => None
                    end
       | [] => None
       end.
Proof. destruct s; reflexivity. Qed.

(** [find_sub] returns the leftmost occurrence. *)
Lemma find_sub_Some (pat s b a : str) :
  find_sub pat s = Some (b, a) ->
  s = b ++ pat ++ a /\
  forall pre post, s = pre ++ pat ++ post -> List.length b <= List.length pre.
Proof.
  revert b a. induction s as [|c s IH]; intros b a; rewrite find_sub_eq.
  - destruct (startswith [] pat) eqn:P; [|discriminate].
    intros E. injection E as <- <-. apply startswith_iff in P as [r P].
    split; [|intros; cbn; lia].
    symmetry in P. apply app_eq_nil in P as [-> ->]. reflexivity.
  - destruct (startswith (c :: s) pat) eqn:P.
    + intros E. injection E as <- <-. apply startswith_iff in P as [r P].
      split; [|intros; cbn; lia].
      rewrite P, skipn_length_app. reflexivity.
    + destruct (find_sub pat s) as [[b1 a1]|]; [|discriminate].
      intros E. injection E as <- <-.
      destruct (IH _ _ eq_refl) as [E L]. split; [rewrite E at 1; reflexivity|].
      intros [|d pre] post Q.
      * cbn [app] in Q. rewrite Q, startswith_app in P. discriminate P.
      * injection Q as _ Q. specialize (L _ _ Q). cbn. lia.
Qed.

Lemma find_sub_None (pat s : str) : find_sub pat s = None -> ~ occurs pat s.
Proof.
  induction s as [|c s IH]; rewrite find_sub_eq.
  - destruct (startswith [] pat) eqn:P; [discriminate|]. intros _ ([|d pre] & post & E).
    + cbn [app] in E. rewrite E, startswith_app in P. discriminate P.
    + discriminate E.
  - destruct (startswith (c :: s) pat) eqn:P; [discriminate|].
    destruct (find_sub pat s) as [[b1 a1]|]; [discriminate|].
    intros _ ([|d pre] & post & E).
    + cbn [app] in E. rewrite E, startswith_app in P. discriminate P.
    + injection E as _ E. apply (IH eq_refl). exists pre, post. exact E.
Qed.

Lemma find_sub_occurs (pat s : str) :
  occurs pat s -> exists b a, find_sub pat s = Some (b, a).
Proof.
  intros O. destruct (find_sub pat s) as [[b a]|] eqn:E; [eauto|].
  destruct (find_sub_None _ _ E O).
Qed.

Lemma find_sub_free (pat s : str) : ~ occurs pat s -> find_sub pat s = None.
Proof.
  intros N. destruct (find_sub pat s) as [[b a]|] eqn:E; [|reflexivity].
  destruct N. apply find_sub_Some in E as [E _]. exists b, a. exact E.
Qed.

Lemma find_sub_shorter (s b a : str) :
  find_sub boundary s = Some (b, a) -> List.length a < List.length s.
Proof.
  intros [E _]%find_sub_Some. rewrite E, !length_app. cbn. lia.
Qed.

(** Induction along the recursion of [re_split]. *)
Lemma re_split_ind (P : str -> Prop) :
  (forall s, find_sub boundary s = None -> P s) ->
  (forall s b a, find_sub boundary s = Some (b, a) -> P a -> P s) ->
  forall s, P s.
Proof.
  intros HN HS s. remember (List.length s) as n eqn:L.
  revert s L. induction n as [n IH] using lt_wf_ind. intros s ->.
  destruct (find_sub boundary s) as [[b a]|] eqn:E; [|apply HN, E].
  apply (HS _ _ _ E). apply (IH (List.length a)); [|reflexivity].
  eapply find_sub_shorter, E.
Qed.

Lemma re_split_nonempty (s : str) : re_split s <> [].
Proof. rewrite re_split_eq. destruct (find_sub boundary s) as [[b a]|]; discriminate. Qed.

Lemma join_cons (sep x : str) (l : list str) :
  l <> [] -> join sep (x :: l) = x ++ sep ++ join sep l.
Proof. destruct l; [congruence | reflexivity]. Qed.

(** Putting the boundary back between the pieces gives the text back. *)
Lemma re_split_join (s : str) : join boundary (re_split s) = s.
Proof.
  induction s as [s E | s b a E IH] using re_split_ind; rewrite re_split_eq, E.
  - reflexivity.
  - rewrite join_cons by apply re_split_nonempty.
    rewrite IH. apply find_sub_Some in E as [E _]. symmetry. exact E.
Qed.

(** No piece contains the boundary: the text is cut at every occurrence. *)
Lemma re_split_free (s : str) : Forall (fun sec => ~ occurs boundary sec) (re_split s).
Proof.
  induction s as [s E | s b a E IH] using re_split_ind; rewrite re_split_eq, E.
  - constructor; [apply find_sub_None, E | constructor].
  - constructor; [|exact IH].
    apply find_sub_Some in E as [E L]. intros (pre & post & B).
    specialize (L pre (post ++ boundary ++ a)).
    rewrite E, B, <- !app_assoc in L. specialize (L eq_refl).
    rewrite !length_app in L. cbn in L. lia.
Qed.

(** The boundary begins with the only newline it has, so an occurrence cannot
    begin inside a text and run into a boundary that follows the text. *)
Lemma boundary_straddle (x rest a : str) :
  x ++ boundary ++ rest = boundary ++ a -> x = [] \/ exists r, x = boundary ++ r.
Proof.
  intros E. cbv in E.
  do 11 (destruct x as [|? x]; [first [left; reflexivity | discriminate E]|];
         injection E as -> E).
  right. exists x. reflexivity.
Qed.

Lemma app_eq_prefix (b u x v : str) :
  b ++ u = x ++ v -> List.length b <= List.length x -> exists x', x = b ++ x'.
Proof.
  revert x. induction b as [|c b IH]; intros x E L.
  - exists x. reflexivity.
  - destruct x as [|d x]; [cbn in L; lia|].
    injection E as -> E. destruct (IH x E) as [x' ->]; [cbn in L; lia|].
    exists x'. reflexivity.
Qed.

Lemma find_sub_boundary_app (x rest : str) :
  ~ occurs boundary x -> find_sub boundary (x ++ boundary ++ rest) = Some (x, rest).
Proof.
  intros N.
  destruct (find_sub_occurs boundary (x ++ boundary ++ rest)) as (b & a & E);
    [exists x, rest; reflexivity|].
  rewrite E. destruct (find_sub_Some _ _ _ _ E) as [Q L].
  specialize (L x rest eq_refl).
  assert (P : exists x', x = b ++ x') by (symmetry in Q; eapply app_eq_prefix; eassumption).
  destruct P as [x' ->]. rewrite <- app_assoc in Q. apply app_inv_head in Q.
  destruct (boundary_straddle _ _ _ Q) as [-> | [r ->]].
  - cbn [app] in Q. apply app_inv_head in Q. subst a. rewrite app_nil_r. reflexivity.
  - destruct N. exists b, r. reflexivity.
Qed.

(** A text put together from boundary-free pieces is split into those
    pieces. *)
Lemma re_split_of_join (secs : list str) :
  secs <> [] -> Forall (fun sec => ~ occurs boundary sec) secs ->
  re_split (join boundary secs) = secs.
Proof.
  induction secs as [|x secs IH]; [congruence|]. intros _ F.
  inversion F as [|? ? Fx Fs]; subst.
  destruct secs as [|y secs].
  - cbn [join]. rewrite re_split_eq, (find_sub_free _ _ Fx). reflexivity.
  - rewrite join_cons by discriminate.
    rewrite re_split_eq, (find_sub_boundary_app _ _ Fx), IH; [reflexivity|discriminate|exact Fs].
Qed.

(** * The path patterns *)

Lemma re_search_eq (f : str -> option str) (s : str) :
  re_search f s = match f s with
                  | Some g => Some g
                  | None => match s with
                            | _ :: s' => re_search f s'
                            | [] => None
                            end
                  end.
Proof. destruct s; reflexivity. Qed.

(** [re_search] stops at the first position where the pattern matches. *)
Lemma re_search_Some (f : str -> option str) (s g : str) :
  re_search f s = Some g ->
  exists pre t, s = pre ++ t /\ f t = Some g /\
    forall pre' t', s = pre' ++ t' -> List.length pre' < List.length pre -> f t' = None.
Proof.
  induction s as [|c s IH]; rewrite re_search_eq.
  - destruct (f []) as [g'|] eqn:F; [|discriminate]. intros E. injection E as ->.
    exists [], []. split; [reflexivity|]. split; [exact F|]. cbn. intros; lia.
  - destruct (f (c :: s)) as [g'|] eqn:F.
    + intros E. injection E as ->. exists [], (c :: s).
      split; [reflexivity|]. split; [exact F|]. cbn. intros; lia.
    + intros E. destruct (IH E) as (pre & t & -> & Ft & M).
      exists (c :: pre), t. split; [reflexivity|]. split; [exact Ft|].
      intros [|d pre'] t' Q L.
      * cbn [app] in Q. subst t'. exact F.
      * injection Q as _ Q. apply (M _ _ Q). cbn in L. lia.
Qed.

Lemma re_search_None (f : str -> option str) (s : str) :
  re_search f s = None -> forall pre t, s = pre ++ t -> f t = None.
Proof.
  induction s as [|c s IH]; rewrite re_search_eq.
  - destruct (f []) eqn:F; [discriminate|]. intros _ pre t E.
    symmetry in E. apply app_eq_nil in E as [_ ->]. exact F.
  - destruct (f (c :: s)) eqn:F; [discriminate|]. intros E [|d pre] t Q.
    + cbn [app] in Q. subst t. exact F.
    + injection Q as _ Q. exact (IH E _ _ Q).
Qed.

Lemma isspace_b : isspace 98%N = false.
Proof. reflexivity. Qed.

Lemma ws_then_b_iff (s : str) :
  ws_then_b s = true <->
  exists ws post, s = ws ++ lit "b/" ++ post /\ ws <> [] /\ forallb isspace ws = true.
Proof.
  split.
  - destruct s as [|c s]; [discriminate|]. cbn [ws_then_b].
    intros [C [post P]%startswith_iff]%andb_prop.
    exists (c :: takewhile isspace s), post. split; [|split].
    + cbn [app]. rewrite <- P, takewhile_dropwhile. reflexivity.
    + discriminate.
    + cbn [forallb]. rewrite C, takewhile_all. reflexivity.
  - intros (ws & post & -> & NE & W). destruct ws as [|c ws]; [congruence|].
    cbn [forallb] in W. apply andb_prop in W as [C W].
    cbn [app ws_then_b]. rewrite C, (dropwhile_app_all _ _ _ W).
    change (lit "b/" ++ post) with (98%N :: (47%N :: post)).
    rewrite (dropwhile_stop _ _ _ isspace_b). cbn. destruct post; reflexivity.
Qed.

Lemma lazy_path_eq (s : str) :
  lazy_path s =
  if ws_then_b s then Some []
  else match s with
       | c :: s' => if dot c then option_map (cons c) (lazy_path s') else None
       | [] => None
       end.
Proof. destruct s; reflexivity. Qed.

(** The lazy group: a one-line prefix after which the rest of the pattern
    matches, and the shortest such. *)
Lemma lazy_path_Some (s p : str) :
  lazy_path s = Some p ->
  forallb dot p = true /\
  (exists r, s = p ++ r /\ ws_then_b r = true) /\
  forall p' r', s = p' ++ r' -> ws_then_b r' = true -> List.length p <= List.length p'.
Proof.
  revert p. induction s as [|c s IH]; intros p; rewrite lazy_path_eq.
  - destruct (ws_then_b []) eqn:W; [|discriminate]. discriminate W.
  - destruct (ws_then_b (c :: s)) eqn:W.
    + intros E. injection E as <-. split; [reflexivity|]. split.
      * exists (c :: s). split; [reflexivity | exact W].
      * intros; cbn; lia.
    + destruct (dot c) eqn:D; [|discriminate].
      destruct (lazy_path s) as [p1|]; [|discriminate].
      intros E. injection E as <-.
      destruct (IH _ eq_refl) as (D1 & (r & -> & R) & M). split; [|split].
      * cbn [forallb]. rewrite D, D1. reflexivity.
      * exists r. split; [reflexivity | exact R].
      * intros [|d p'] r' Q W'.
        -- cbn [app] in Q. subst r'. rewrite W in W'. discriminate W'.
        -- injection Q as _ Q. specialize (M _ _ Q W'). cbn. lia.
Qed.

Lemma lazy_path_None (s : str) :
  lazy_path s = None ->
  forall p r, s = p ++ r -> forallb dot p = true -> ws_then_b r = false.
Proof.
  induction s as [|c s IH]; rewrite lazy_path_eq.
  - intros _ p r E _. symmetry in E. apply app_eq_nil in E as [_ ->]. reflexivity.
  - destruct (ws_then_b (c :: s)) eqn:W; [discriminate|].
    intros E [|d p] r Q D.
    + cbn [app] in Q. subst r. exact W.
    + injection Q as <- Q. cbn [forallb] in D. apply andb_prop in D as [Dc D].
      rewrite Dc in E. destruct (lazy_path s); [discriminate|].
      exact (IH eq_refl _ _ Q D).
Qed.

Lemma HeaderAt_shift (sec pre p : str) :
  HeaderAt sec pre p <-> exists t, sec = pre ++ t /\ HeaderAt t [] p.
Proof.
  split.
  - intros (ws & post & -> & H). eexists. split; [reflexivity|].
    exists ws, post. split; [reflexivity | exact H].
  - intros (t & -> & ws & post & -> & H). exists ws, post. split; [reflexivity | exact H].
Qed.

Lemma match_header_Some (t p : str) :
  match_header t = Some p ->
  HeaderAt t [] p /\ forall p', HeaderAt t [] p' -> List.length p <= List.length p'.
Proof.
  unfold match_header. destruct (startswith t (lit "a/")) eqn:A; [|discriminate].
  apply startswith_iff in A as [r ->]. change (skipn 2 (lit "a/" ++ r)) with r.
  intros (D & (r' & -> & (ws & post & -> & NE & W)%ws_then_b_iff) & M)%lazy_path_Some.
  split.
  - exists ws, post. repeat split; assumption.
  - intros p' (ws' & post' & E & _ & NE' & W').
    apply (app_inv_head (lit "a/")) in E.
    apply (M p' (ws' ++ lit "b/" ++ post') E). apply ws_then_b_iff.
    exists ws', post'. repeat split; assumption.
Qed.

Lemma match_header_None (t : str) :
  match_header t = None -> forall p, ~ HeaderAt t [] p.
Proof.
  unfold match_header. intros E p (ws & post & -> & D & NE & W).
  rewrite app_nil_l, (startswith_app (lit "a/")) in E.
  change (skipn 2 _) with (p ++ ws ++ lit "b/" ++ post) in E.
  pose proof (lazy_path_None _ E p _ eq_refl D) as F.
  assert (T : ws_then_b (ws ++ lit "b/" ++ post) = true)
    by (apply ws_then_b_iff; exists ws, post; repeat split; assumption).
  rewrite T in F. discriminate F.
Qed.

(** Two prefixes of one text that are equally long are equal. *)
Lemma app_eq_length (a b c d : str) :
  a ++ b = c ++ d -> List.length a = List.length c -> a = c /\ b = d.
Proof.
  revert c. induction a as [|x a IH]; intros [|y c] E L; try discriminate L.
  - split; [reflexivity | exact E].
  - injection E as -> E. injection L as L. destruct (IH _ E L) as [-> ->]. split; reflexivity.
Qed.

(** What [re.search] finds for the first pattern. *)
Lemma search_header_Some (sec p : str) :
  re_search match_header sec = Some p -> FirstHeader sec p.
Proof.
  intros (pre & t & -> & [H M]%match_header_Some & Early)%re_search_Some.
  exists pre. split; [apply HeaderAt_shift; exists t; split; [reflexivity | exact H]|].
  intros pre' p' (t' & E & H')%HeaderAt_shift.
  destruct (Nat.lt_trichotomy (List.length pre) (List.length pre')) as [L|[L|L]].
  - left. exact L.
  - right. split; [exact L|]. destruct (app_eq_length _ _ _ _ E L) as [_ ->]. apply M, H'.
  - destruct (match_header_None _ (Early _ _ E L) _ H').
Qed.

Lemma search_header_None (sec : str) :
  re_search match_header sec = None -> forall pre p, ~ HeaderAt sec pre p.
Proof.
  intros E pre p (t & Q & H)%HeaderAt_shift.
  exact (match_header_None _ (re_search_None _ _ E _ _ Q) _ H).
Qed.

Lemma MarkerAt_shift (sec pre p : str) :
  MarkerAt sec pre p <-> exists t, sec = pre ++ t /\ MarkerAt t [] p.
Proof.
  split.
  - intros (post & -> & H). eexists. split; [reflexivity|].
    exists post. split; [reflexivity | exact H].
  - intros (t & -> & post & -> & H). exists post. split; [reflexivity | exact H].
Qed.

Lemma dot_false (c : char) : dot c = false -> c = nl.
Proof. unfold dot. intros E%negb_false_iff. apply N.eqb_eq, E. Qed.

Lemma match_marker_Some (t p : str) :
  match_marker t = Some p -> MarkerAt t [] p.
Proof.
  unfold match_marker. destruct (startswith t (lit "+++ b/")) eqn:A; [|discriminate].
  apply startswith_iff in A as [r ->]. change (skipn 6 (lit "+++ b/" ++ r)) with r.
  intros E. injection E as <-. exists (dropwhile dot r).
  split; [cbn [app]; rewrite takewhile_dropwhile; reflexivity|].
  split; [apply takewhile_all|].
  destruct (dropwhile_head dot r) as [->|(c & r' & -> & C)]; [left; reflexivity|].
  right. exists r'. rewrite (dot_false _ C). reflexivity.
Qed.

(** The group of the second pattern is fixed by where the pattern starts. *)
Lemma MarkerAt_group (t p : str) :
  MarkerAt t [] p -> match_marker t = Some p.
Proof.
  intros (post & -> & D & P). unfold match_marker. rewrite app_nil_l.
  rewrite (startswith_app (lit "+++ b/")).
  change (skipn 6 (lit "+++ b/" ++ p ++ post)) with (p ++ post).
  destruct P as [-> | [post' ->]].
  - rewrite app_nil_r, (takewhile_whole _ _ D). reflexivity.
  - rewrite (takewhile_app_stop dot p nl post' D eq_refl). reflexivity.
Qed.

(** What [re.search] finds for the second pattern. *)
Lemma search_marker_Some (sec p : str) :
  re_search match_marker sec = Some p -> FirstMarker sec p.
Proof.
  intros (pre & t & -> & H%match_marker_Some & Early)%re_search_Some.
  exists pre. split; [apply MarkerAt_shift; exists t; split; [reflexivity | exact H]|].
  intros pre' p' (t' & E & H'%MarkerAt_group)%MarkerAt_shift.
  destruct (Nat.le_gt_cases (List.length pre) (List.length pre')) as [L|L]; [exact L|].
  rewrite (Early _ _ E L) in H'. discriminate H'.
Qed.

Lemma search_marker_None (sec : str) :
  re_search match_marker sec = None -> forall pre p, ~ MarkerAt sec pre p.
Proof.
  intros E pre p (t & Q & H%MarkerAt_group)%MarkerAt_shift.
  rewrite (re_search_None _ _ E _ _ Q) in H. discriminate H.
Qed.

(** * Sections and records *)

(** A blank text matches neither path pattern and holds no boundary. *)
Lemma blank_no_header (s : str) :
  forallb isspace s = true -> re_search match_header s = None.
Proof.
  intros B. destruct (re_search match_header s) as [p|] eqn:E; [|reflexivity].
  apply search_header_Some in E as (pre & (ws & post & -> & _) & _).
  rewrite forallb_app in B. apply andb_prop in B as [_ B]. discriminate B.
Qed.

Lemma blank_no_marker (s : str) :
  forallb isspace s = true -> re_search match_marker s = None.
Proof.
  intros B. destruct (re_search match_marker s) as [p|] eqn:E; [|reflexivity].
  apply search_marker_Some in E as (pre & (post & -> & _) & _).
  rewrite forallb_app in B. apply andb_prop in B as [_ B]. discriminate B.
Qed.

Lemma blank_no_boundary (s : str) :
  forallb isspace s = true -> find_sub boundary s = None.
Proof.
  intros B. apply find_sub_free. intros (pre & post & ->).
  rewrite forallb_app in B. apply andb_prop in B as [_ B]. discriminate B.
Qed.

Lemma blank_no_path (s : str) :
  forallb isspace s = true -> _extract_file_path s = [].
Proof.
  intros B. unfold _extract_file_path.
  rewrite (blank_no_header _ B), (blank_no_marker _ B). reflexivity.
Qed.

(** A section in which a path is found is not blank, so the test on the path
    alone decides whether it is kept. *)
Lemma section_record_path (sec : str) :
  section_record sec = if truthy (_extract_file_path sec) then [record_of sec] else [].
Proof.
  unfold section_record. destruct (truthy (strip sec)) eqn:T; [reflexivity|].
  apply truthy_false_iff, strip_nil_iff in T. rewrite (blank_no_path _ T). reflexivity.
Qed.

Lemma parse_step_record (acc : list FileChange) (sec : str) :
  parse_step acc sec = acc ++ section_record sec.
Proof.
  unfold parse_step, section_record.
  destruct (truthy (strip sec)); cbn [negb andb]; [|rewrite app_nil_r; reflexivity].
  destruct (truthy (_extract_file_path sec)); cbn [negb]; [|rewrite app_nil_r; reflexivity].
  rewrite extract_changes_classify. reflexivity.
Qed.

Lemma parse_fold (secs : list str) (acc : list FileChange) :
  fold_left parse_step secs acc = acc ++ flat_map section_record secs.
Proof.
  revert acc. induction secs as [|sec secs IH]; intros acc; cbn [fold_left flat_map].
  - rewrite app_nil_r. reflexivity.
  - rewrite parse_step_record, IH, <- app_assoc. reflexivity.
Qed.

(** The result is what the sections contribute, in the order of the
    sections; the early return for a blank text changes nothing. *)
Lemma parse_diff_sections (s : str) :
  parse_diff s = flat_map section_record (re_split s).
Proof.
  unfold parse_diff.
  destruct (negb (truthy s) || negb (truthy (strip s))) eqn:G.
  - assert (B : forallb isspace s = true).
    { apply orb_prop in G as [G|G]; apply negb_true_iff, truthy_false_iff in G.
      - subst s. reflexivity.
      - apply strip_nil_iff, G. }
    rewrite re_split_eq, (blank_no_boundary _ B). cbn [flat_map].
    rewrite section_record_path, (blank_no_path _ B). reflexivity.
  - rewrite parse_fold. reflexivity.
Qed.

Lemma in_parse_diff (s : str) (r : FileChange) :
  In r (parse_diff s) <->
  exists sec, In sec (re_split s) /\ _extract_file_path sec <> [] /\ r = record_of sec.
Proof.
  rewrite parse_diff_sections, in_flat_map. split.
  - intros (sec & I & R). exists sec. split; [exact I|].
    rewrite section_record_path in R.
    destruct (truthy (_extract_file_path sec)) eqn:T; [|destruct R].
    destruct R as [<-|[]]. split; [apply truthy_true_iff, T | reflexivity].
  - intros (sec & I & P & ->). exists sec. split; [exact I|].
    rewrite section_record_path. apply truthy_true_iff in P. rewrite P. left. reflexivity.
Qed.

(** * No exception on the way *)

Lemma raising_extract_file_path (sec : str) :
  Raising._extract_file_path sec = Raising.Ok (_extract_file_path sec).
Proof.
  unfold Raising._extract_file_path, _extract_file_path, Raising.search.
  destruct (re_search match_header sec); [reflexivity|].
  destruct (re_search match_marker sec); reflexivity.
Qed.

Lemma raising_parse_step (acc : list FileChange) (sec : str) :
  Raising.parse_step (map to_dict acc) sec = Raising.Ok (map to_dict (parse_step acc sec)).
Proof.
  unfold Raising.parse_step, parse_step.
  destruct (negb (truthy (strip sec))); [reflexivity|].
  rewrite raising_extract_file_path. cbn [Raising.bind].
  destruct (negb (truthy (_extract_file_path sec))); [reflexivity|].
  destruct (_extract_changes sec) as [A D]. rewrite map_app. reflexivity.
Qed.

Lemma raising_for_each (secs : list str) (acc : list FileChange) :
  Raising.for_each Raising.parse_step secs (map to_dict acc)
  = Raising.Ok (map to_dict (fold_left parse_step secs acc)).
Proof.
  revert acc. induction secs as [|sec secs IH]; intros acc; [reflexivity|].
  cbn [Raising.for_each fold_left]. rewrite raising_parse_step. cbn [Raising.bind].
  apply IH.
Qed.

Lemma raising_parse_diff (s : str) :
  Raising.parse_diff s = Raising.Ok (map to_dict (parse_diff s)).
Proof.
  unfold Raising.parse_diff, parse_diff.
  destruct (negb (truthy s) || negb (truthy (strip s))); [reflexivity|].
  apply (raising_for_each _ []).
Qed.

Lemma fold_add_sum (l : list nat) (a : nat) : fold_left Nat.add l a = a + list_sum l.
Proof.
  revert a. induction l as [|x l IH]; intros a; cbn; [lia|].
  rewrite IH. fold (list_sum l). lia.
Qed.

Lemma py_sum_list_sum (l : list nat) : py_sum l = list_sum l.
Proof. unfold py_sum. rewrite fold_add_sum. reflexivity. Qed.

Lemma raising_sum_additions (l : list FileChange) (a : nat) :
  Raising.for_each
    (fun total f => Raising.bind (Raising.getitem f "addition_count")
       (fun v => Raising.bind (Raising.to_int v) (fun n => Raising.Ok (total + n))))
    (map to_dict l) a
  = Raising.Ok (fold_left Nat.add (map addition_count l) a).
Proof.
  revert a. induction l as [|r l IH]; intros a; [reflexivity|]. apply IH.
Qed.

Lemma raising_sum_deletions (l : list FileChange) (a : nat) :
  Raising.for_each
    (fun total f => Raising.bind (Raising.getitem f "deletion_count")
       (fun v => Raising.bind (Raising.to_int v) (fun n => Raising.Ok (total + n))))
    (map to_dict l) a
  = Raising.Ok (fold_left Nat.add (map deletion_count l) a).
Proof.
  revert a. induction l as [|r l IH]; intros a; [reflexivity|]. apply IH.
Qed.

(** The summary does not raise either: every dictionary of the result has
    the two keys it reads, holding numbers. *)
Lemma raising_get_summary (s : str) :
  Raising.get_summary s = Raising.Ok (get_summary s).
Proof.
  unfold Raising.get_summary, get_summary. rewrite raising_parse_diff.
  cbn [Raising.bind]. destruct (parse_diff s) as [|r l]; [reflexivity|].
  set (parsed := r :: l). change (map to_dict parsed) with (to_dict r :: map to_dict l).
  cbv beta iota. unfold Raising.sum_of.
  change (to_dict r :: map to_dict l) with (map to_dict parsed).
  rewrite raising_sum_additions. cbn [Raising.bind].
  rewrite raising_sum_deletions. cbn [Raising.bind].
  rewrite length_map. reflexivity.
Qed.

(** * What lies inside a section lies inside the text *)

Lemma join_in (sep x : str) (l : list str) :
  In x l -> exists u v, join sep l = u ++ x ++ v.
Proof.
  induction l as [|y l IH]; [intros []|]. intros I.
  destruct l as [|z l].
  - destruct I as [->|[]]. exists [], []. cbn [join app]. rewrite app_nil_r. reflexivity.
  - rewrite join_cons by discriminate. destruct I as [->|I].
    + exists [], (sep ++ join sep (z :: l)). reflexivity.
    + destruct (IH I) as (u & v & ->). exists (y ++ sep ++ u), v.
      rewrite <- !app_assoc. reflexivity.
Qed.

Lemma section_in_text (s sec : str) :
  In sec (re_split s) -> exists u v, s = u ++ sec ++ v.
Proof.
  intros I. destruct (join_in boundary _ _ I) as (u & v & E).
  rewrite re_split_join in E. eauto.
Qed.

Lemma HeaderAt_in_text (u v sec pre p : str) :
  HeaderAt sec pre p -> HeaderAt (u ++ sec ++ v) (u ++ pre) p.
Proof.
  intros (ws & post & -> & H). exists ws, (post ++ v). split; [|exact H].
  rewrite <- !app_assoc. reflexivity.
Qed.

(** A section without either pattern has no path. *)
Lemma no_pattern_no_path (sec : str) :
  (forall pre p, ~ HeaderAt sec pre p) -> ~ occurs (lit "+++ b/") sec ->
  _extract_file_path sec = [].
Proof.
  intros NH NM. unfold _extract_file_path.
  destruct (re_search match_header sec) as [p|] eqn:H.
  - apply search_header_Some in H as (pre & H & _). destruct (NH _ _ H).
  - destruct (re_search match_marker sec) as [p|] eqn:M; [|reflexivity].
    apply search_marker_Some in M as (pre & (post & -> & _) & _).
    destruct NM. exists pre, (p ++ post). reflexivity.
Qed.

(** * Records of the kept sections *)

Lemma flat_map_section_record (secs : list str) :
  flat_map section_record secs
  = map record_of (filter (fun sec => truthy (_extract_file_path sec)) secs).
Proof.
  induction secs as [|sec secs IH]; [reflexivity|].
  cbn [flat_map filter]. rewrite section_record_path, IH.
  destruct (truthy (_extract_file_path sec)); reflexivity.
Qed.

Lemma parse_diff_emitted (s : str) :
  parse_diff s = map record_of (emitted_sections s).
Proof. rewrite parse_diff_sections. apply flat_map_section_record. Qed.

Lemma filter_map_truthy (secs : list str) :
  map _extract_file_path (filter (fun sec => truthy (_extract_file_path sec)) secs)
  = filter truthy (map _extract_file_path secs).
Proof.
  induction secs as [|sec secs IH]; [reflexivity|]. cbn [filter map].
  destruct (truthy (_extract_file_path sec)); cbn [map]; rewrite IH; reflexivity.
Qed.

Lemma classify_marker (l : str) :
  startswith l (lit "+++") = true \/ startswith l (lit "---") = true ->
  classify l = Ignored.
Proof.
  intros H. unfold classify.
  destruct (startswith l (lit "+++")), (startswith l (lit "---"));
    try reflexivity. destruct H; discriminate.
Qed.

Lemma classify_hunk (l : str) :
  startswith l (lit "@@") = true -> classify l = Ignored.
Proof.
  intros H. unfold classify. rewrite H.
  destruct (startswith l (lit "+++") || startswith l (lit "---")); reflexivity.
Qed.

Lemma classify_addition (t : str) :
  startswith (lit "+" ++ t) (lit "+++") = false ->
  classify (lit "+" ++ t) = Addition (strip t).
Proof.
  intros H. unfold classify. rewrite H.
  rewrite (startswith_app (lit "+")). reflexivity.
Qed.

Lemma classify_deletion (t : str) :
  startswith (lit "-" ++ t) (lit "---") = false ->
  classify (lit "-" ++ t) = Deletion (strip t).
Proof.
  intros H. unfold classify. rewrite H.
  rewrite (startswith_app (lit "-")). reflexivity.
Qed.

Lemma classify_other (l : str) :
  startswith l (lit "+") = false -> startswith l (lit "-") = false ->
  classify l = Ignored.
Proof.
  intros P M. unfold classify. rewrite P, M.
  destruct (startswith l (lit "+++") || startswith l (lit "---")); [reflexivity|].
  destruct (startswith l (lit "@@")); reflexivity.
Qed.

Lemma classify_no_change (l : str) : change_line l = false -> classify l = Ignored.
Proof.
  unfold change_line. intros [P M]%orb_false_elim.
  destruct (startswith l (lit "+++")) eqn:P3; [apply classify_marker; left; exact P3|].
  destruct (startswith l (lit "---")) eqn:M3; [apply classify_marker; right; exact M3|].
  cbn [negb] in P, M. rewrite andb_true_r in P, M. apply classify_other; assumption.
Qed.

Lemma no_change_lines (ls : list str) :
  existsb change_line ls = false -> flat_map added ls = [] /\ flat_map deleted ls = [].
Proof.
  induction ls as [|l ls IH]; [split; reflexivity|].
  cbn [existsb flat_map]. intros [C R]%orb_false_elim.
  destruct (IH R) as [-> ->]. unfold added, deleted.
  rewrite (classify_no_change _ C). split; reflexivity.
Qed.

(** * The header of a renamed file *)

Lemma lazy_path_plain (p r : str) :
  plain_path p = true -> ws_then_b r = true -> lazy_path (p ++ r) = Some p.
Proof.
  intros P R. induction p as [|c p IH]; rewrite lazy_path_eq.
  - cbn [app]. rewrite R. reflexivity.
  - cbn [plain_path forallb] in P. apply andb_prop in P as [[D S]%andb_prop P].
    apply negb_true_iff in S. cbn [app ws_then_b]. rewrite S, D. cbn [andb].
    rewrite (IH P). reflexivity.
Qed.

Lemma search_header_skip (pre t : str) :
  ~ occurs (lit "a/") pre ->
  re_search match_header (pre ++ lit "a/" ++ t) = re_search match_header (lit "a/" ++ t).
Proof.
  induction pre as [|c pre IH]; [reflexivity|]. intros N.
  cbn [app]. rewrite re_search_eq.
  assert (M : match_header (c :: pre ++ lit "a/" ++ t) = None).
  { unfold match_header.
    destruct (startswith (c :: pre ++ lit "a/" ++ t) (lit "a/")) eqn:E; [|reflexivity].
    apply startswith_iff in E as [r E]. destruct N.
    destruct pre as [|d pre]; [discriminate E|].
    injection E as -> -> _. exists [], pre. reflexivity. }
  rewrite M. apply IH. intros (u & v & ->). apply N. exists (c :: u), v. reflexivity.
Qed.

Lemma extract_header_path (pre old ws rest : str) :
  ~ occurs (lit "a/") pre -> plain_path old = true ->
  ws <> [] -> forallb isspace ws = true ->
  _extract_file_path (pre ++ lit "a/" ++ old ++ ws ++ lit "b/" ++ rest) = old.
Proof.
  intros N P NE W. unfold _extract_file_path.
  rewrite (search_header_skip _ _ N), re_search_eq. unfold match_header.
  rewrite (startswith_app (lit "a/")).
  change (skipn 2 (lit "a/" ++ ?x)) with x.
  rewrite (lazy_path_plain _ _ P); [reflexivity|].
  apply ws_then_b_iff. exists ws, rest. repeat split; assumption.
Qed.

Lemma FirstHeader_unique (sec p q : str) :
  FirstHeader sec p -> FirstHeader sec q -> p = q.
Proof.
  intros (pre & H & M) (pre' & H' & M').
  pose proof (M _ _ H') as L. pose proof (M' _ _ H) as L'.
  assert (Lpre : List.length pre = List.length pre') by lia.
  assert (Lp : List.length p = List.length q) by lia.
  destruct H as (ws & post & E & _). destruct H' as (ws' & post' & E' & _).
  rewrite E in E'. apply app_eq_length in E' as [_ E']; [|exact Lpre].
  apply (app_inv_head (lit "a/")) in E'.
  apply app_eq_length in E' as [E' _]; [exact E' | exact Lp].
Qed.

Lemma FirstMarker_unique (sec p q : str) :
  FirstMarker sec p -> FirstMarker sec q -> p = q.
Proof.
  intros (pre & H & M) (pre' & H' & M').
  pose proof (M _ _ H') as L. pose proof (M' _ _ H) as L'.
  assert (Lpre : List.length pre = List.length pre') by lia.
  apply MarkerAt_shift in H as (t & E & H). apply MarkerAt_shift in H' as (t' & E' & H').
  rewrite E in E'. apply app_eq_length in E' as [_ <-]; [|exact Lpre].
  apply MarkerAt_group in H, H'. congruence.
Qed.

Lemma flat_map_nil {A B : Type} (f : A -> list B) (l : list A) :
  (forall x, In x l -> f x = []) -> flat_map f l = [].
Proof.
  induction l as [|x l IH]; [reflexivity|]. intros H. cbn [flat_map].
  rewrite (H x (or_introl eq_refl)), IH; [reflexivity|].
  intros y I. apply H. right. exact I.
Qed.

(** * The claims *)

(** C1, as stated, fails in its second half.  The output of [diff -r a b],
    in the normal format and not the unified one, has no [diff --git] header,
    no [+++] marker and no [@@] hunk header; the first path pattern matches
    in its command line all the same, and the parser gives a record for it. *)
Lemma C1_counterexample :
  find_sub (lit "diff --git") normal_diff = None
  /\ find_sub (lit "+++") normal_diff = None
  /\ find_sub (lit "@@") normal_diff = None
  /\ parse_diff normal_diff
     = [ {| file_path := lit "x.py";
            additions := [];
            deletions := [];
            addition_count := 0;
            deletion_count := 0;
            change_summary := lit "+0, -0" |} ].
Proof. repeat split; reflexivity. Qed.

(** C1, amended: for every input string, [parse_diff] returns a sequence of
    records and raises nothing: the run with the exceptions written out ends
    in [Ok] with the dictionaries of the records.  That sequence is what the
    sections contribute one after the other, each a record or nothing, and a
    text in which neither path pattern is found gives the empty sequence. *)
Theorem C1_parse_total (diff_text : str) :
  Raising.parse_diff diff_text = Raising.Ok (map to_dict (parse_diff diff_text))
  /\ parse_diff diff_text = flat_map section_record (re_split diff_text)
  /\ (forall sec, List.length (section_record sec) <= 1)
  /\ ((forall pre p, ~ HeaderAt diff_text pre p) ->
      ~ occurs (lit "+++ b/") diff_text ->
      parse_diff diff_text = []).
Proof.
  split; [apply raising_parse_diff|]. split; [apply parse_diff_sections|]. split.
  - intros sec. unfold section_record.
    destruct (truthy (strip sec) && truthy (_extract_file_path sec)); cbn; lia.
  - intros NH NM. rewrite parse_diff_sections. apply flat_map_nil.
    intros sec (u & v & E)%section_in_text.
    rewrite section_record_path, no_pattern_no_path; [reflexivity| |].
    + intros pre p H. apply (NH (u ++ pre) p). rewrite E. apply HeaderAt_in_text, H.
    + intros (a & b & ->). apply NM. exists (u ++ a), (b ++ v).
      rewrite E, <- !app_assoc. reflexivity.
Qed.

Lemma C1_parse_total_witness :
  parse_diff (lit "Only in src: notes.txt" ++ [nl] ++ lit "b/ is newer") = [].
Proof.
  apply C1_parse_total.
  - apply search_header_None. reflexivity.
  - apply find_sub_None. reflexivity.
Defined.

(** C2: the additions and deletions of every record are the lines of its
    section, each read in this order: a line that begins with [+++] or [---]
    gives nothing; a line that begins with [@@] gives nothing; a remaining
    line that begins with [+] gives an addition, the line without its first
    character and trimmed; a remaining line that begins with [-] gives a
    deletion in the same way; any other line gives nothing.  The lines are
    the pieces of the section between its newlines.  So [+++ b/a.py] is no
    addition and [--- a/a.py] no deletion. *)
Theorem C2_line_classification (diff_text sec line : str) :
  map (fun r => (additions r, deletions r)) (parse_diff diff_text)
  = map (fun sec => (flat_map added (split_lines sec), flat_map deleted (split_lines sec)))
      (emitted_sections diff_text)
  /\ _extract_changes sec
     = (flat_map added (split_lines sec), flat_map deleted (split_lines sec))
  /\ (join [nl] (split_lines sec) = sec /\ Forall (fun l => ~ In nl l) (split_lines sec))
  /\ (startswith line (lit "+++") = true \/ startswith line (lit "---") = true ->
      added line = [] /\ deleted line = [])
  /\ (startswith line (lit "@@") = true -> added line = [] /\ deleted line = [])
  /\ (forall t, line = lit "+" ++ t -> startswith line (lit "+++") = false ->
      added line = [strip t] /\ deleted line = [])
  /\ (forall t, line = lit "-" ++ t -> startswith line (lit "---") = false ->
      added line = [] /\ deleted line = [strip t])
  /\ (startswith line (lit "+") = false -> startswith line (lit "-") = false ->
      added line = [] /\ deleted line = [])
  /\ added (lit "+++ b/a.py") = [] /\ deleted (lit "--- a/a.py") = [].
Proof.
  split; [rewrite parse_diff_emitted, map_map; reflexivity|].
  split; [apply extract_changes_classify|].
  split; [split; [apply split_lines_join | apply split_lines_no_newline]|].
  unfold added, deleted.
  split; [intros H; rewrite (classify_marker _ H); split; reflexivity|].
  split; [intros H; rewrite (classify_hunk _ H); split; reflexivity|].
  split; [intros t -> H; rewrite (classify_addition _ H); split; reflexivity|].
  split; [intros t -> H; rewrite (classify_deletion _ H); split; reflexivity|].
  split; [intros P M; rewrite (classify_other _ P M); split; reflexivity|].
  split; reflexivity.
Qed.

Lemma C2_line_classification_witness :
  added (lit "+  x = 1 ") = [lit "x = 1"] /\ deleted (lit "+  x = 1 ") = [].
Proof.
  destruct (C2_line_classification sample_diff sample_diff (lit "+  x = 1 "))
    as (_ & _ & _ & _ & _ & H & _).
  exact (H (lit "  x = 1 ") eq_refl eq_refl).
Defined.

(** C3, as stated, fails: the second pattern is searched for anywhere in the
    section, not only at the beginning of a line.  In the one-section text
    below, a context line of a patch that itself holds a patch, no line begins
    with [+++ b/], so the extraction as the claim words it finds no path and
    promises no record; the parser finds the path [f] and emits a record. *)
Lemma C3_counterexample :
  re_split (lit " +++ b/f") = [lit " +++ b/f"]
  /\ spec_extract_file_path (lit " +++ b/f") = []
  /\ map file_path (parse_diff (lit " +++ b/f")) = [lit "f"].
Proof. repeat split; reflexivity. Qed.

(** C3, amended: the path of a section is found by the first of two
    patterns that matches.  (a) [a/], a path on one line, white space, [b/]:
    the path of the leftmost match, the shortest there.  (b) Failing that,
    the leftmost occurrence of [+++ b/] anywhere in the section, at the
    beginning of a line or not: what follows it up to the end of the line,
    trimmed.  Failing both, the empty path.  The paths of the records are the
    non-empty paths of the sections, in order: a section has a record exactly
    when its path is not empty. *)
Theorem C3_path_extraction (diff_text sec : str) :
  ((exists pre p, HeaderAt sec pre p) ->
   exists p, FirstHeader sec p /\ _extract_file_path sec = p)
  /\ ((forall pre p, ~ HeaderAt sec pre p) -> (exists pre p, MarkerAt sec pre p) ->
      exists p, FirstMarker sec p /\ _extract_file_path sec = strip p)
  /\ ((forall pre p, ~ HeaderAt sec pre p) -> (forall pre p, ~ MarkerAt sec pre p) ->
      _extract_file_path sec = [])
  /\ (forall p q, FirstHeader sec p -> FirstHeader sec q -> p = q)
  /\ (forall p q, FirstMarker sec p -> FirstMarker sec q -> p = q)
  /\ map file_path (parse_diff diff_text)
     = filter truthy (map _extract_file_path (re_split diff_text)).
Proof.
  unfold _extract_file_path. repeat split.
  - intros (pre & p & H). destruct (re_search match_header sec) as [p0|] eqn:E.
    + exists p0. split; [apply search_header_Some, E | reflexivity].
    + destruct (search_header_None _ E _ _ H).
  - intros NH (pre & p & M). destruct (re_search match_header sec) as [p0|] eqn:E.
    + apply search_header_Some in E as (pre0 & H & _). destruct (NH _ _ H).
    + destruct (re_search match_marker sec) as [q|] eqn:F.
      * exists q. split; [apply search_marker_Some, F | reflexivity].
      * destruct (search_marker_None _ F _ _ M).
  - intros NH NM. destruct (re_search match_header sec) as [p0|] eqn:E.
    + apply search_header_Some in E as (pre0 & H & _). destruct (NH _ _ H).
    + destruct (re_search match_marker sec) as [q|] eqn:F; [|reflexivity].
      apply search_marker_Some in F as (pre0 & M & _). destruct (NM _ _ M).
  - apply FirstHeader_unique.
  - apply FirstMarker_unique.
  - fold _extract_file_path. rewrite parse_diff_emitted, map_map.
    unfold emitted_sections. rewrite <- filter_map_truthy. reflexivity.
Qed.

Lemma C3_path_extraction_witness :
  exists p, FirstMarker (lit " +++ b/f") p /\ _extract_file_path (lit " +++ b/f") = strip p.
Proof.
  apply (C3_path_extraction [] (lit " +++ b/f")).
  - apply search_header_None. reflexivity.
  - exists (lit " "), (lit "f"), []. repeat split. left. reflexivity.
Defined.

(** C4: in every record of the result, [addition_count] is the length of
    [additions] and [deletion_count] the length of [deletions]. *)
Theorem C4_counts_are_lengths (diff_text : str) (r : FileChange) :
  In r (parse_diff diff_text) ->
  addition_count r = List.length (additions r)
  /\ deletion_count r = List.length (deletions r).
Proof.
  intros (sec & _ & _ & ->)%in_parse_diff. split; reflexivity.
Qed.

Lemma C4_counts_are_lengths_witness :
  In (record_of sample_diff) (parse_diff sample_diff)
  /\ addition_count (record_of sample_diff) = List.length (additions (record_of sample_diff))
  /\ deletion_count (record_of sample_diff) = List.length (deletions (record_of sample_diff)).
Proof.
  assert (I : In (record_of sample_diff) (parse_diff sample_diff))
    by (left; vm_compute; reflexivity).
  split; [exact I | exact (C4_counts_are_lengths sample_diff _ I)].
Defined.

(** C5: in every record of the result, [change_summary] is [+], the
    addition count in decimal, [, -], and the deletion count in decimal. *)
Theorem C5_change_summary (diff_text : str) (r : FileChange) :
  In r (parse_diff diff_text) ->
  change_summary r
  = lit "+" ++ str_of_nat (addition_count r) ++ lit ", -" ++ str_of_nat (deletion_count r).
Proof.
  intros (sec & _ & _ & ->)%in_parse_diff. reflexivity.
Qed.

Lemma C5_change_summary_witness :
  In (record_of sample_diff) (parse_diff sample_diff)
  /\ change_summary (record_of sample_diff)
     = lit "+" ++ str_of_nat (addition_count (record_of sample_diff)) ++ lit ", -"
         ++ str_of_nat (deletion_count (record_of sample_diff)).
Proof.
  assert (I : In (record_of sample_diff) (parse_diff sample_diff))
    by (left; vm_compute; reflexivity).
  split; [exact I | exact (C5_change_summary sample_diff _ I)].
Defined.

(** C6: when the result of [parse_diff] is empty, [get_summary] is
    [No changes detected]; otherwise it is the number of records, the sum of
    their addition counts and the sum of their deletion counts, in decimal,
    in the line [N file(s) changed: A addition(s), D deletion(s)]. *)
Theorem C6_get_summary (x : str) :
  (parse_diff x = [] -> get_summary x = lit "No changes detected")
  /\ (parse_diff x <> [] ->
      get_summary x
      = str_of_nat (List.length (parse_diff x)) ++ lit " file(s) changed: "
          ++ str_of_nat (list_sum (map addition_count (parse_diff x)))
          ++ lit " addition(s), "
          ++ str_of_nat (list_sum (map deletion_count (parse_diff x)))
          ++ lit " deletion(s)").
Proof.
  unfold get_summary. rewrite !py_sum_list_sum. split.
  - intros ->. reflexivity.
  - destruct (parse_diff x); [congruence | reflexivity].
Qed.

Lemma C6_get_summary_witness :
  get_summary [] = lit "No changes detected"
  /\ get_summary sample_diff = lit "1 file(s) changed: 2 addition(s), 1 deletion(s)".
Proof.
  split.
  - apply (C6_get_summary []). reflexivity.
  - rewrite (proj2 (C6_get_summary sample_diff)); [vm_compute; reflexivity|].
    vm_compute. discriminate.
Defined.

(** C7: on the empty string and on any string of white space only,
    [parse_diff] returns the empty sequence and [get_summary] returns
    [No changes detected]. *)
Theorem C7_blank_input (diff_text : str) :
  forallb isspace diff_text = true ->
  parse_diff diff_text = [] /\ get_summary diff_text = lit "No changes detected".
Proof.
  intros B.
  assert (P : parse_diff diff_text = []).
  { unfold parse_diff. apply strip_nil_iff in B. rewrite B. cbn [truthy negb].
    rewrite orb_true_r. reflexivity. }
  split; [exact P|]. unfold get_summary. rewrite P. reflexivity.
Qed.

Lemma C7_blank_input_witness :
  (parse_diff [] = [] /\ get_summary [] = lit "No changes detected")
  /\ (parse_diff (lit "   " ++ [nl; 9%N]) = []
      /\ get_summary (lit "   " ++ [nl; 9%N]) = lit "No changes detected").
Proof.
  split; apply C7_blank_input; reflexivity.
Defined.

(** C8: a section in which a path is found and no line records a change
    has its record in the result: the path, no additions, no deletions, both
    counts 0 and the summary [+0, -0]. *)
Theorem C8_no_change_lines (diff_text sec : str) :
  In sec (re_split diff_text) ->
  _extract_file_path sec <> [] ->
  existsb change_line (split_lines sec) = false ->
  In {| file_path := _extract_file_path sec;
        additions := [];
        deletions := [];
        addition_count := 0;
        deletion_count := 0;
        change_summary := lit "+0, -0" |}
     (parse_diff diff_text).
Proof.
  intros I P N. apply in_parse_diff. exists sec. split; [exact I|]. split; [exact P|].
  destruct (no_change_lines _ N) as [A D].
  unfold record_of, section_additions, section_deletions. rewrite A, D. reflexivity.
Qed.

Lemma C8_no_change_lines_witness :
  In {| file_path := lit "logo.png";
        additions := [];
        deletions := [];
        addition_count := 0;
        deletion_count := 0;
        change_summary := lit "+0, -0" |}
     (parse_diff binary_diff).
Proof.
  apply (C8_no_change_lines binary_diff binary_diff).
  - left. reflexivity.
  - vm_compute. discriminate.
  - reflexivity.
Defined.

(** C9: the text is cut at every occurrence of a newline followed by
    [diff --git]: the sections, with that boundary put back between them,
    are the text, and none of them holds the boundary.  Each section, the
    text before the first boundary included, gives its record unless it is
    blank or without a path, and the records stand in the order of the
    sections; so a text made of sections gives the records of the first, then
    those of the second, and so on. *)
Theorem C9_sections_in_order (diff_text : str) (secs : list str) :
  (join boundary (re_split diff_text) = diff_text
   /\ Forall (fun sec => ~ occurs boundary sec) (re_split diff_text)
   /\ parse_diff diff_text = flat_map section_record (re_split diff_text))
  /\ (secs <> [] -> Forall (fun sec => ~ occurs boundary sec) secs ->
      re_split (join boundary secs) = secs
      /\ parse_diff (join boundary secs) = flat_map section_record secs).
Proof.
  split; [split; [apply re_split_join | split; [apply re_split_free | apply parse_diff_sections]]|].
  intros NE F. rewrite parse_diff_sections, (re_split_of_join _ NE F). split; reflexivity.
Qed.

Lemma C9_sections_in_order_witness :
  re_split (first_section ++ boundary ++ second_section) = [first_section; second_section]
  /\ parse_diff (first_section ++ boundary ++ second_section)
     = [record_of first_section; record_of second_section].
Proof.
  destruct (C9_sections_in_order [] [first_section; second_section]) as [_ H].
  change (join boundary [first_section; second_section])
    with (first_section ++ boundary ++ second_section) in H.
  destruct H as [S P].
  - discriminate.
  - repeat constructor; apply find_sub_None; reflexivity.
  - split; [exact S|]. rewrite P. vm_compute. reflexivity.
Defined.

(** C10: when the first pattern, [a/], a path, white space, [b/], matches
    somewhere in a section, the path of the section is the path of its first
    match, and that is the path of the record if there is one; the path after
    [+++ b/] is taken only when the first pattern matches nowhere.  In
    particular, for the header of a rename, [a/old], white space, [b/new],
    with no [a/] before it, the path is the old one whatever follows. *)
Theorem C10_header_path_first (sec : str) :
  ((exists pre p, HeaderAt sec pre p) ->
   exists p0, FirstHeader sec p0 /\ _extract_file_path sec = p0
              /\ map file_path (section_record sec) = if truthy p0 then [p0] else [])
  /\ (forall q, FirstMarker sec q -> _extract_file_path sec = strip q ->
      (forall pre p, ~ HeaderAt sec pre p) \/ FirstHeader sec (strip q))
  /\ ((forall pre p, ~ HeaderAt sec pre p) ->
      forall q, FirstMarker sec q -> _extract_file_path sec = strip q)
  /\ (forall pre old ws new rest,
        ~ occurs (lit "a/") pre -> plain_path old = true ->
        ws <> [] -> forallb isspace ws = true ->
        _extract_file_path (pre ++ lit "a/" ++ old ++ ws ++ lit "b/" ++ new ++ rest) = old).
Proof.
  split; [|split; [|split]].
  - intros (pre & p & H). unfold _extract_file_path.
    destruct (re_search match_header sec) as [p0|] eqn:E.
    + exists p0. split; [apply search_header_Some, E|]. split; [reflexivity|].
      rewrite section_record_path. unfold _extract_file_path. rewrite E.
      destruct (truthy p0); [|reflexivity]. cbn [map record_of file_path].
      unfold _extract_file_path. rewrite E. reflexivity.
    + destruct (search_header_None _ E _ _ H).
  - intros q _ Q. unfold _extract_file_path in Q.
    destruct (re_search match_header sec) as [p0|] eqn:E.
    + right. rewrite <- Q. apply search_header_Some, E.
    + left. apply search_header_None, E.
  - intros NH q Q. unfold _extract_file_path.
    destruct (re_search match_header sec) as [p0|] eqn:E.
    + apply search_header_Some in E as (pre0 & H & _). destruct (NH _ _ H).
    + destruct (re_search match_marker sec) as [q'|] eqn:F.
      * apply search_marker_Some in F. rewrite (FirstMarker_unique _ _ _ Q F). reflexivity.
      * destruct Q as (pre0 & M & _). destruct (search_marker_None _ F _ _ M).
  - intros pre old ws new rest N P NE W.
    apply (extract_header_path pre old ws (new ++ rest) N P NE W).
Qed.

Lemma C10_header_path_first_witness :
  _extract_file_path
    (lit "diff --git " ++ lit "a/" ++ lit "old.py" ++ lit " " ++ lit "b/" ++ lit "new.py"
       ++ ([nl] ++ lit "--- a/old.py" ++ [nl] ++ lit "+++ b/new.py" ++ [nl]))
  = lit "old.py".
Proof.
  apply (C10_header_path_first []).
  - apply find_sub_None. reflexivity.
  - reflexivity.
  - discriminate.
  - reflexivity.
Defined.

(** * Beyond the claims: how texts compose *)

Lemma find_sub_app_r (pat s t b a : str) :
  find_sub pat s = Some (b, a) -> find_sub pat (s ++ t) = Some (b, a ++ t).
Proof.
  revert b a. induction s as [|c s IH]; intros b a; rewrite (find_sub_eq pat (_ ++ t)).
  - rewrite find_sub_eq. destruct (startswith [] pat) eqn:P; [|discriminate].
    apply startswith_iff in P as [r P]. symmetry in P. apply app_eq_nil in P as [-> _].
    intros E. injection E as <- <-. cbn [app]. destruct t; reflexivity.
  - rewrite find_sub_eq. destruct (startswith (c :: s) pat) eqn:P.
    + intros E. injection E as <- <-.
      pose proof (startswith_length _ _ P) as L.
      apply startswith_iff in P as [r P]. rewrite P, <- app_assoc, startswith_app.
      rewrite !skipn_length_app. reflexivity.
    + destruct (find_sub pat s) as [[b1 a1]|] eqn:F; [|discriminate].
      intros E. injection E as <- <-.
      destruct (startswith ((c :: s) ++ t) pat) eqn:Q.
      * apply startswith_iff in Q as [r Q].
        apply find_sub_Some in F as [F _].
        assert (L : List.length pat <= List.length (c :: s))
          by (rewrite F; cbn; rewrite !length_app; lia).
        symmetry in Q. destruct (app_eq_prefix _ _ _ _ Q L) as [x E].
        rewrite E, startswith_app in P. discriminate P.
      * cbn [app]. rewrite (IH _ _ eq_refl). reflexivity.
Qed.

(** Splitting a text made of two texts with a boundary between them. *)
Lemma re_split_app (s1 s2 : str) :
  re_split (s1 ++ boundary ++ s2) = re_split s1 ++ re_split s2.
Proof.
  induction s1 as [s1 E | s1 b a E IH] using re_split_ind.
  - rewrite (re_split_eq (s1 ++ _)), (find_sub_boundary_app _ _ (find_sub_None _ _ E)).
    rewrite (re_split_eq s1), E. reflexivity.
  - rewrite (re_split_eq (s1 ++ _)), (find_sub_app_r _ _ _ _ _ E).
    rewrite (re_split_eq s1), E, IH. reflexivity.
Qed.

Lemma parse_diff_app (s1 s2 : str) :
  parse_diff (s1 ++ boundary ++ s2) = parse_diff s1 ++ parse_diff s2.
Proof.
  rewrite !parse_diff_sections, re_split_app. apply flat_map_app.
Qed.

(** X1: [parse_diff] of two texts with a section boundary between them is
    the records of the first followed by the records of the second, and the
    count of files and the two totals that [get_summary] prints add up. *)
Theorem X1_parse_diff_app (s1 s2 : str) :
  parse_diff (s1 ++ boundary ++ s2) = parse_diff s1 ++ parse_diff s2
  /\ List.length (parse_diff (s1 ++ boundary ++ s2))
     = List.length (parse_diff s1) + List.length (parse_diff s2)
  /\ py_sum (map addition_count (parse_diff (s1 ++ boundary ++ s2)))
     = py_sum (map addition_count (parse_diff s1))
       + py_sum (map addition_count (parse_diff s2))
  /\ py_sum (map deletion_count (parse_diff (s1 ++ boundary ++ s2)))
     = py_sum (map deletion_count (parse_diff s1))
       + py_sum (map deletion_count (parse_diff s2)).
Proof.
  rewrite parse_diff_app, length_app, !map_app, !py_sum_list_sum, !list_sum_app.
  repeat split; reflexivity.
Qed.

(** * Beyond the claims: a newline at the end *)

Lemma startswith_snoc (t p : str) (c : char) :
  ~ In c p -> startswith (t ++ [c]) p = startswith t p.
Proof.
  revert t. induction p as [|a p IH]; intros t N.
  - destruct t; reflexivity.
  - destruct t as [|b t]; cbn [app startswith].
    + destruct (a =? c)%N eqn:E; [|reflexivity].
      apply N.eqb_eq in E. destruct N. left. exact E.
    + rewrite IH; [reflexivity|]. intros I. apply N. right. exact I.
Qed.

Lemma dropwhile_snoc (p : char -> bool) (r : str) (c : char) :
  p c = true ->
  dropwhile p (r ++ [c]) = if forallb p r then [] else dropwhile p r ++ [c].
Proof.
  intros C. induction r as [|d r IH]; cbn; [rewrite C; reflexivity|].
  destruct (p d); [exact IH | reflexivity].
Qed.

Lemma takewhile_snoc_stop (p : char -> bool) (r : str) (c : char) :
  p c = false -> takewhile p (r ++ [c]) = takewhile p r.
Proof.
  intros C. induction r as [|d r IH]; cbn; [rewrite C; reflexivity|].
  destruct (p d); [rewrite IH|]; reflexivity.
Qed.

Lemma skipn_snoc (n : nat) (t : str) (c : char) :
  n <= List.length t -> skipn n (t ++ [c]) = skipn n t ++ [c].
Proof.
  intros L. rewrite skipn_app. replace (n - List.length t) with 0 by lia. reflexivity.
Qed.

Lemma ws_then_b_newline (r : str) : ws_then_b (r ++ [nl]) = ws_then_b r.
Proof.
  destruct r as [|c r]; [reflexivity|]. cbn [app ws_then_b].
  rewrite (dropwhile_snoc isspace r nl eq_refl).
  destruct (forallb isspace r) eqn:B.
  - apply dropwhile_nil_iff in B. rewrite B. reflexivity.
  - rewrite startswith_snoc; [reflexivity|]. cbv. intuition discriminate.
Qed.

Lemma lazy_path_newline (r : str) : lazy_path (r ++ [nl]) = lazy_path r.
Proof.
  induction r as [|c r IH]; [reflexivity|].
  rewrite (lazy_path_eq ((c :: r) ++ [nl])), (lazy_path_eq (c :: r)).
  rewrite ws_then_b_newline. cbn [app]. rewrite IH. reflexivity.
Qed.

Lemma match_header_newline (t : str) : match_header (t ++ [nl]) = match_header t.
Proof.
  unfold match_header. rewrite startswith_snoc by (cbv; intuition discriminate).
  destruct (startswith t (lit "a/")) eqn:A; [|reflexivity].
  rewrite skipn_snoc by apply (startswith_length _ _ A). apply lazy_path_newline.
Qed.

Lemma match_marker_newline (t : str) : match_marker (t ++ [nl]) = match_marker t.
Proof.
  unfold match_marker. rewrite startswith_snoc by (cbv; intuition discriminate).
  destruct (startswith t (lit "+++ b/")) eqn:A; [|reflexivity].
  rewrite skipn_snoc by apply (startswith_length _ _ A).
  rewrite (takewhile_snoc_stop dot _ nl eq_refl). reflexivity.
Qed.

Lemma re_search_newline (f : str -> option str) (s : str) :
  (forall t, f (t ++ [nl]) = f t) -> re_search f (s ++ [nl]) = re_search f s.
Proof.
  intros F. induction s as [|c s IH].
  - cbn [app]. rewrite (re_search_eq f [nl]), (re_search_eq f []).
    pose proof (F []) as F0. cbn [app] in F0. rewrite F0. destruct (f []); reflexivity.
  - rewrite (re_search_eq f ((c :: s) ++ [nl])), (re_search_eq f (c :: s)).
    rewrite F. cbn [app]. rewrite IH. reflexivity.
Qed.

Lemma extract_file_path_newline (sec : str) :
  _extract_file_path (sec ++ [nl]) = _extract_file_path sec.
Proof.
  unfold _extract_file_path.
  rewrite (re_search_newline _ _ match_header_newline).
  rewrite (re_search_newline _ _ match_marker_newline). reflexivity.
Qed.

Lemma split_lines_snoc_newline (s : str) : split_lines (s ++ [nl]) = split_lines s ++ [[]].
Proof.
  induction s as [|c s IH]; [reflexivity|]. cbn [app split_lines]. rewrite IH.
  destruct (c =? nl)%N; [reflexivity|].
  pose proof (split_lines_nonempty s) as NE.
  destruct (split_lines s); [congruence | reflexivity].
Qed.

Lemma record_of_newline (sec : str) : record_of (sec ++ [nl]) = record_of sec.
Proof.
  unfold record_of, section_additions, section_deletions.
  rewrite extract_file_path_newline, split_lines_snoc_newline, !flat_map_app.
  cbn [flat_map]. change (added []) with (@nil str). change (deleted []) with (@nil str).
  rewrite !app_nil_r. reflexivity.
Qed.

Lemma section_record_newline (sec : str) :
  section_record (sec ++ [nl]) = section_record sec.
Proof.
  rewrite !section_record_path, extract_file_path_newline, record_of_newline. reflexivity.
Qed.

Lemma boundary_free_newline (s : str) :
  ~ occurs boundary s -> ~ occurs boundary (s ++ [nl]).
Proof.
  intros N (pre & post & E). destruct (exists_last (l := post)) as (post' & c & ->).
  - intros ->. rewrite app_nil_r in E.
    change boundary with ((nl :: lit "diff --gi") ++ [116%N]) in E.
    rewrite app_assoc in E. apply app_inj_tail in E as [_ E]. discriminate E.
  - rewrite !app_assoc in E. apply app_inj_tail in E as [E _].
    apply N. exists pre, post'. rewrite E, <- app_assoc. reflexivity.
Qed.

Lemma parse_diff_newline (diff_text : str) :
  parse_diff (diff_text ++ [nl]) = parse_diff diff_text.
Proof.
  rewrite !parse_diff_sections.
  induction diff_text as [s E | s b a E IH] using re_split_ind.
  - rewrite (re_split_eq (s ++ [nl])), (re_split_eq s), E.
    rewrite (find_sub_free _ _ (boundary_free_newline _ (find_sub_None _ _ E))).
    cbn [flat_map]. rewrite section_record_newline. reflexivity.
  - rewrite (re_split_eq (s ++ [nl])), (re_split_eq s), E.
    rewrite (find_sub_app_r _ _ _ _ _ E). cbn [flat_map]. rewrite IH. reflexivity.
Qed.

(** X2: a newline added at the end of the text changes neither the result
    of [parse_diff] nor the summary. *)
Theorem X2_trailing_newline (diff_text : str) :
  parse_diff (diff_text ++ [nl]) = parse_diff diff_text
  /\ get_summary (diff_text ++ [nl]) = get_summary diff_text.
Proof.
  unfold get_summary. rewrite parse_diff_newline. split; reflexivity.
Qed.

(** * Beyond the claims: staged and unstaged changes together *)

(** Where the pattern cannot begin with the characters of [pre], the search
    passes over [pre]. *)
Lemma re_search_skip (f : str -> option str) (pre t : str) :
  Forall (fun c => forall u, f (c :: u) = None) pre ->
  re_search f (pre ++ t) = re_search f t.
Proof.
  induction 1 as [|c pre H _ IH]; [reflexivity|].
  cbn [app]. rewrite re_search_eq, H. exact IH.
Qed.

Lemma find_sub_boundary_prefix (pre u : str) :
  ~ In nl pre ->
  find_sub boundary (pre ++ u)
  = match find_sub boundary u with
    | Some (b, a) => Some (pre ++ b, a)
    | None => None
    end.
Proof.
  induction pre as [|c pre IH]; intros N.
  - cbn [app]. destruct (find_sub boundary u) as [[b a]|]; reflexivity.
  - cbn [app]. rewrite find_sub_eq.
    assert (P : startswith (c :: pre ++ u) boundary = false).
    { unfold boundary. cbn [startswith]. destruct (nl =? c)%N eqn:E; [|reflexivity].
      apply N.eqb_eq in E. destruct N. left. symmetry. exact E. }
    rewrite P, IH by (intros I; apply N; right; exact I).
    destruct (find_sub boundary u) as [[b a]|]; reflexivity.
Qed.

Lemma split_lines_prefix (pre s : str) :
  ~ In nl pre ->
  split_lines (pre ++ s)
  = match split_lines s with
    | l :: ls => (pre ++ l) :: ls
    | [] => [pre]
    end.
Proof.
  induction pre as [|c pre IH]; intros N.
  - cbn [app]. pose proof (split_lines_nonempty s) as NE.
    destruct (split_lines s); [congruence | reflexivity].
  - cbn [app split_lines].
    destruct (c =? nl)%N eqn:E; [apply N.eqb_eq in E; destruct N; left; exact E|].
    rewrite IH by (intros I; apply N; right; exact I).
    destruct (split_lines s); reflexivity.
Qed.

(** The words [diff --git] before a section that begins with a blank: the
    record of the section stays as it is. *)
Lemma section_record_git_word (sec : str) :
  section_record (lit "diff --git" ++ lit " " ++ sec) = section_record (lit " " ++ sec).
Proof.
  rewrite !section_record_path.
  assert (P : _extract_file_path (lit "diff --git" ++ lit " " ++ sec)
              = _extract_file_path (lit " " ++ sec)).
  { unfold _extract_file_path.
    rewrite !(re_search_skip _ (lit "diff --git"));
      [reflexivity | repeat constructor; intros u; reflexivity
                   | repeat constructor; intros u; reflexivity]. }
  assert (C : record_of (lit "diff --git" ++ lit " " ++ sec) = record_of (lit " " ++ sec)).
  { unfold record_of, section_additions, section_deletions. rewrite P.
    rewrite (split_lines_prefix (lit "diff --git")) by (cbv; intuition discriminate).
    rewrite (split_lines_prefix (lit " ") sec) by (cbv; intuition discriminate).
    pose proof (split_lines_nonempty sec) as NE.
    destruct (split_lines sec) as [|l ls]; [congruence|]. reflexivity. }
  rewrite P, C. reflexivity.
Qed.

Lemma parse_diff_git_word (u : str) :
  parse_diff (lit "diff --git" ++ lit " " ++ u) = parse_diff (lit " " ++ u).
Proof.
  rewrite !parse_diff_sections.
  rewrite (re_split_eq (lit "diff --git" ++ _)), (re_split_eq (lit " " ++ u)).
  rewrite (find_sub_boundary_prefix (lit "diff --git")) by (cbv; intuition discriminate).
  rewrite (find_sub_boundary_prefix (lit " ") u) by (cbv; intuition discriminate).
  destruct (find_sub boundary u) as [[b a]|]; cbn [flat_map];
    rewrite section_record_git_word; reflexivity.
Qed.

(** X3: when the unstaged diff is empty or begins, as git prints it, with
    [diff --git] and a blank, parsing what [get_all_changes] returns gives
    the records of the staged diff followed by those of the unstaged diff. *)
Theorem X3_all_changes_parse (staged unstaged : str) :
  unstaged = [] \/ startswith unstaged (lit "diff --git ") = true ->
  parse_diff (get_all_changes staged unstaged) = parse_diff staged ++ parse_diff unstaged.
Proof.
  intros H. unfold get_all_changes.
  destruct staged as [|c staged]; [reflexivity|].
  destruct H as [-> | [u ->]%startswith_iff].
  { cbn [truthy andb]. change (parse_diff []) with (@nil FileChange).
    rewrite app_nil_r. reflexivity. }
  change (truthy (c :: staged) && truthy (lit "diff --git " ++ u)) with true.
  cbv iota.
  change (lit "diff --git " ++ u) with (lit "diff --git" ++ lit " " ++ u).
  rewrite parse_diff_git_word.
  change ([nl; nl] ++ lit "diff --git" ++ lit " " ++ u)
    with ([nl] ++ boundary ++ lit " " ++ u).
  rewrite (app_assoc (c :: staged) [nl]), parse_diff_app, parse_diff_newline. reflexivity.
Qed.

Lemma X3_all_changes_parse_witness :
  (startswith unstaged_sample (lit "diff --git ") = true)
  /\ parse_diff (get_all_changes first_section unstaged_sample)
     = parse_diff first_section ++ parse_diff unstaged_sample.
Proof.
  split; [reflexivity|].
  apply X3_all_changes_parse. right. reflexivity.
Defined.

(** * Beyond the claims: what a record holds *)

Lemma dropwhile_snoc_stop (p : char -> bool) (w : str) (c : char) :
  p c = false -> dropwhile p (w ++ [c]) = dropwhile p w ++ [c].
Proof.
  intros C. induction w as [|d w IH]; cbn; [rewrite C; reflexivity|].
  destruct (p d); [exact IH | reflexivity].
Qed.

(** A trimmed string is empty, or begins and ends with characters that are
    not white space. *)
Lemma strip_shape (x : str) :
  strip x = [] \/
  exists c z, strip x = c :: rev z /\ isspace c = false
              /\ (z = [] \/ exists d z', z = d :: z' /\ isspace d = false).
Proof.
  unfold strip, rstrip, lstrip.
  destruct (dropwhile_head isspace x) as [E | (c & y & E & C)]; rewrite E.
  - left. reflexivity.
  - right. cbn [rev]. rewrite (dropwhile_snoc_stop _ _ _ C), rev_app_distr. cbn [rev app].
    exists c, (dropwhile isspace (rev y)). split; [reflexivity|]. split; [exact C|].
    destruct (dropwhile_head isspace (rev y)) as [F | (d & z' & F & D)].
    + left. exact F.
    + right. exists d, z'. split; assumption.
Qed.

Lemma strip_idem (x : str) : strip (strip x) = strip x.
Proof.
  destruct (strip_shape x) as [-> | (c & z & -> & C & Z)]; [reflexivity|].
  unfold strip, lstrip, rstrip. rewrite (dropwhile_stop _ _ _ C).
  cbn [rev]. rewrite rev_involutive.
  destruct Z as [-> | (d & z' & -> & D)].
  - cbn. rewrite C. reflexivity.
  - cbn [app]. rewrite (dropwhile_stop _ _ _ D).
    change (d :: z' ++ [c]) with ((d :: z') ++ [c]). rewrite rev_app_distr. reflexivity.
Qed.

Lemma strip_last (x p : str) (c : char) : strip x = p ++ [c] -> isspace c = false.
Proof.
  destruct (strip_shape x) as [-> | (c0 & z & -> & C & Z)].
  - intros E. destruct p; discriminate E.
  - intros E. apply (f_equal (@rev char)) in E.
    rewrite rev_app_distr in E. cbn [rev app] in E. rewrite rev_involutive in E.
    destruct Z as [-> | (d & z' & -> & D)]; injection E as <- _; assumption.
Qed.

Lemma strip_occurs (x : str) : occurs (strip x) x.
Proof.
  unfold strip, rstrip, lstrip. exists (takewhile isspace x).
  exists (rev (takewhile isspace (rev (dropwhile isspace x)))).
  rewrite <- rev_app_distr, takewhile_dropwhile, rev_involutive, takewhile_dropwhile.
  reflexivity.
Qed.

Lemma occurs_trans (a b c : str) : occurs a b -> occurs b c -> occurs a c.
Proof.
  intros (u & v & ->) (u' & v' & ->). exists (u' ++ u), (v ++ v').
  rewrite <- !app_assoc. reflexivity.
Qed.

Lemma forallb_dropwhile (q p : char -> bool) (s : str) :
  forallb q s = true -> forallb q (dropwhile p s) = true.
Proof.
  induction s as [|c s IH]; [reflexivity|]. intros H. cbn [dropwhile].
  destruct (p c); [|exact H]. cbn [forallb] in H. apply andb_prop in H as [_ H]. exact (IH H).
Qed.

Lemma forallb_strip (q : char -> bool) (s : str) :
  forallb q s = true -> forallb q (strip s) = true.
Proof.
  intros H. unfold strip, rstrip, lstrip.
  rewrite forallb_rev. apply forallb_dropwhile. rewrite forallb_rev.
  apply forallb_dropwhile, H.
Qed.

Lemma dot_no_newline (p : str) : forallb dot p = true <-> ~ In nl p.
Proof.
  rewrite forallb_forall. split.
  - intros H I. specialize (H _ I). discriminate H.
  - intros N c I. unfold dot. destruct (c =? nl)%N eqn:E; [|reflexivity].
    apply N.eqb_eq in E. subst c. destruct (N I).
Qed.

(** The lazy group of the first pattern never ends in white space: a shorter
    group would have matched. *)
Lemma header_path_tight (sec p p' : str) (c : char) :
  FirstHeader sec p -> p = p' ++ [c] -> isspace c = false.
Proof.
  intros (pre & (ws & post & E & D & NE & W) & M) ->.
  destruct (isspace c) eqn:C; [|reflexivity].
  rewrite forallb_app in D. apply andb_prop in D as [D _].
  assert (H : HeaderAt sec pre p').
  { exists (c :: ws), post. split; [rewrite E, <- !app_assoc; reflexivity|].
    split; [exact D|]. split; [discriminate|]. cbn [forallb]. rewrite C. exact W. }
  specialize (M _ _ H). rewrite length_app in M. cbn in M. lia.
Qed.

Lemma path_facts (sec : str) :
  forallb dot (_extract_file_path sec) = true
  /\ (forall p c, _extract_file_path sec = p ++ [c] -> isspace c = false)
  /\ occurs (_extract_file_path sec) sec.
Proof.
  unfold _extract_file_path.
  destruct (re_search match_header sec) as [p0|] eqn:E.
  - apply search_header_Some in E. split; [|split].
    + destruct E as (pre & (ws & post & _ & D & _) & _). exact D.
    + intros p c Q. exact (header_path_tight _ _ _ _ E Q).
    + destruct E as (pre & (ws & post & -> & _) & _).
      exists (pre ++ lit "a/"), (ws ++ lit "b/" ++ post). rewrite <- !app_assoc. reflexivity.
  - destruct (re_search match_marker sec) as [q|] eqn:F.
    + apply search_marker_Some in F as (pre & (post & -> & D & _) & _). split; [|split].
      * apply forallb_strip, D.
      * intros p c Q. exact (strip_last _ _ _ Q).
      * apply (occurs_trans _ q); [apply strip_occurs|].
        exists (pre ++ lit "+++ b/"), post. rewrite <- !app_assoc. reflexivity.
    + split; [reflexivity|]. split; [intros p c Q; destruct p; discriminate Q|].
      exists [], sec. reflexivity.
Qed.

Lemma section_occurs (s sec : str) : In sec (re_split s) -> occurs sec s.
Proof. intros (u & v & E)%section_in_text. exists u, v. exact E. Qed.

(** X4: the path of every record is not empty, lies on one line, does not
    end in white space, and is a piece of the text that was parsed. *)
Theorem X4_file_path_shape (diff_text : str) (r : FileChange) :
  In r (parse_diff diff_text) ->
  file_path r <> []
  /\ ~ In nl (file_path r)
  /\ (forall p c, file_path r = p ++ [c] -> isspace c = false)
  /\ occurs (file_path r) diff_text.
Proof.
  intros (sec & I & P & ->)%in_parse_diff. cbn [record_of file_path].
  destruct (path_facts sec) as (D & T & O).
  split; [exact P|]. split; [apply dot_no_newline, D|]. split; [exact T|].
  exact (occurs_trans _ _ _ O (section_occurs _ _ I)).
Qed.

Lemma X4_file_path_shape_witness :
  In (record_of sample_diff) (parse_diff sample_diff)
  /\ file_path (record_of sample_diff) <> []
  /\ ~ In nl (file_path (record_of sample_diff))
  /\ (forall p c, file_path (record_of sample_diff) = p ++ [c] -> isspace c = false)
  /\ occurs (file_path (record_of sample_diff)) sample_diff.
Proof.
  assert (I : In (record_of sample_diff) (parse_diff sample_diff))
    by (left; vm_compute; reflexivity).
  split; [exact I | exact (X4_file_path_shape sample_diff _ I)].
Defined.

Lemma classify_text (l t : str) :
  classify l = Addition t \/ classify l = Deletion t -> t = strip (tl l).
Proof.
  unfold classify.
  destruct (startswith l (lit "+++") || startswith l (lit "---"));
    [intros [E|E]; discriminate E|].
  destruct (startswith l (lit "@@")); [intros [E|E]; discriminate E|].
  destruct (startswith l (lit "+")); [intros [E|E]; [injection E as <-; reflexivity | discriminate E]|].
  destruct (startswith l (lit "-")); intros [E|E]; try discriminate E.
  injection E as <-. reflexivity.
Qed.

Lemma recorded_text (l t : str) : In t (added l) \/ In t (deleted l) -> t = strip (tl l).
Proof.
  unfold added, deleted. intros [I|I]; apply classify_text.
  - left. destruct (classify l); cbn in I; try contradiction.
    destruct I as [<-|[]]. reflexivity.
  - right. destruct (classify l); cbn in I; try contradiction.
    destruct I as [<-|[]]. reflexivity.
Qed.

Lemma line_occurs (sec l : str) : In l (split_lines sec) -> occurs l sec.
Proof.
  intros I. destruct (join_in [nl] _ _ I) as (u & v & E).
  rewrite split_lines_join in E. exists u, v. exact E.
Qed.

Lemma tl_occurs (l : str) : occurs (tl l) l.
Proof.
  destruct l as [|c l]; [exists [], []; reflexivity|].
  exists [c], []. cbn. rewrite app_nil_r. reflexivity.
Qed.

Lemma occurs_no_newline (a b : str) : occurs a b -> ~ In nl b -> ~ In nl a.
Proof.
  intros (u & v & ->) N I. apply N. rewrite !in_app_iff. right. left. exact I.
Qed.

(** X5: every line recorded in [additions] or [deletions] is trimmed (it
    neither begins nor ends with white space), holds no newline, and is a
    piece of the text that was parsed. *)
Theorem X5_recorded_lines (diff_text : str) (r : FileChange) (t : str) :
  In r (parse_diff diff_text) ->
  In t (additions r) \/ In t (deletions r) ->
  strip t = t /\ ~ In nl t /\ occurs t diff_text.
Proof.
  intros (sec & I & _ & ->)%in_parse_diff. cbn [record_of additions deletions].
  unfold section_additions, section_deletions. rewrite !in_flat_map.
  intros H.
  assert (L : exists l, In l (split_lines sec) /\ t = strip (tl l)).
  { destruct H as [(l & Il & It) | (l & Il & It)]; exists l; (split; [exact Il|]);
      apply recorded_text; [left | right]; exact It. }
  destruct L as (l & Il & ->).
  assert (O : occurs (strip (tl l)) l)
    by exact (occurs_trans _ _ _ (strip_occurs _) (tl_occurs l)).
  split; [apply strip_idem|]. split.
  - apply (occurs_no_newline _ _ O).
    pose proof (split_lines_no_newline sec) as F. rewrite Forall_forall in F. exact (F _ Il).
  - apply (occurs_trans _ _ _ O). apply (occurs_trans _ _ _ (line_occurs _ _ Il)).
    exact (section_occurs _ _ I).
Qed.

Lemma X5_recorded_lines_witness :
  strip (lit "return True") = lit "return True"
  /\ ~ In nl (lit "return True")
  /\ occurs (lit "return True") sample_diff.
Proof.
  apply (X5_recorded_lines sample_diff (record_of sample_diff)).
  - left. vm_compute. reflexivity.
  - left. vm_compute. right. left. reflexivity.
Defined.

(** * Beyond the claims: the summary *)

(** A number in decimal begins with a digit. *)
Lemma str_of_nat_head (n : nat) :
  exists c rest, str_of_nat n = c :: rest /\ (48 <= c <= 57)%N.
Proof.
  unfold str_of_nat. destruct (Nat.to_uint n); cbn;
    eexists; eexists; (split; [reflexivity | lia]).
Qed.

(** X6: [get_summary] returns [No changes detected] exactly when
    [parse_diff] finds no file; the other line begins with a digit. *)
Theorem X6_no_changes_iff (diff_text : str) :
  get_summary diff_text = lit "No changes detected" <-> parse_diff diff_text = [].
Proof.
  unfold get_summary. split.
  - destruct (parse_diff diff_text) as [|r l]; [reflexivity|].
    destruct (str_of_nat_head (List.length (r :: l))) as (c & rest & -> & B).
    intros E. injection E as -> _. lia.
  - intros ->. reflexivity.
Qed.

Lemma X6_no_changes_iff_witness :
  get_summary normal_diff <> lit "No changes detected"
  /\ get_summary (lit "   ") = lit "No changes detected".
Proof.
  split.
  - intros E. apply X6_no_changes_iff in E. vm_compute in E. discriminate E.
  - apply X6_no_changes_iff. reflexivity.
Defined.

(** X7: [get_summary] raises nothing, whatever the text: run with the
    exceptions written out, every dictionary of the result has the keys
    [addition_count] and [deletion_count] that the summary reads, each
    holding a number, and the summary ends in [Ok] with its line. *)
Theorem X7_get_summary_never_raises (diff_text : str) :
  Raising.get_summary diff_text = Raising.Ok (get_summary diff_text)
  /\ forall ds d, Raising.parse_diff diff_text = Raising.Ok ds -> In d ds ->
       exists a n,
         Raising.getitem d "additions" = Raising.Ok (Raising.VList a)
         /\ Raising.getitem d "addition_count" = Raising.Ok (Raising.VInt (List.length a))
         /\ Raising.getitem d "deletion_count" = Raising.Ok (Raising.VInt n).
Proof.
  split; [apply raising_get_summary|].
  intros ds d E I. rewrite raising_parse_diff in E. injection E as <-.
  apply in_map_iff in I as (r & <- & (sec & _ & _ & ->)%in_parse_diff).
  exists (section_additions sec), (List.length (section_deletions sec)).
  repeat split; reflexivity.
Qed.

Lemma X7_get_summary_never_raises_witness :
  Raising.get_summary sample_diff
  = Raising.Ok (lit "1 file(s) changed: 2 addition(s), 1 deletion(s)").
Proof.
  rewrite (proj1 (X7_get_summary_never_raises sample_diff)). vm_compute. reflexivity.
Defined.

(** * Beyond the claims: white space at the end of a line *)





Lemma split_lines_app_nl (x z : str) :
  split_lines (x ++ nl :: z) = split_lines x ++ split_lines z.
Proof.
  induction x as [|c x IH]; [reflexivity|]. cbn [app split_lines]. rewrite IH.
  destruct (c =? nl)%N; [reflexivity|].
  pose proof (split_lines_nonempty x) as NE.
  destruct (split_lines x); [congruence | reflexivity].
Qed.

Lemma split_lines_one (l : str) : ~ In nl l -> split_lines l = [l].
Proof.
  induction l as [|c l IH]; [reflexivity|]. intros N. cbn [split_lines].
  destruct (c =? nl)%N eqn:E; [apply N.eqb_eq in E; destruct N; left; exact E|].
  rewrite IH; [reflexivity|]. intros I. apply N. right. exact I.
Qed.




(** * Beyond the claims: counts and the size of the text *)

Lemma changes_per_line (l : str) : List.length (added l) + List.length (deleted l) <= 1.
Proof. unfold added, deleted. destruct (classify l); cbn; lia. Qed.

Lemma changes_le_lines (ls : list str) :
  List.length (flat_map added ls) + List.length (flat_map deleted ls) <= List.length ls.
Proof.
  induction ls as [|l ls IH]; [cbn; lia|].
  cbn [flat_map]. rewrite !length_app. pose proof (changes_per_line l). cbn [List.length]. lia.
Qed.

(** The sections share out the lines of the text: the newline of a boundary
    ends the last line of the section before it. *)
Lemma lines_of_sections (s : str) : lines_of (re_split s) = List.length (split_lines s).
Proof.
  unfold lines_of.
  induction s as [s E | s b a E IH] using re_split_ind; rewrite re_split_eq, E.
  - cbn. lia.
  - cbn [map list_sum fold_right]. fold (list_sum (map (fun sec => List.length (split_lines sec)) (re_split a))).
    rewrite IH. apply find_sub_Some in E as [-> _].
    change (b ++ boundary ++ a) with (b ++ nl :: (lit "diff --git" ++ a)).
    rewrite split_lines_app_nl, length_app.
    rewrite (split_lines_prefix (lit "diff --git")) by (cbv; intuition discriminate).
    pose proof (split_lines_nonempty a) as NE.
    destruct (split_lines a); [congruence | reflexivity].
Qed.

Lemma records_le_lines (secs : list str) :
  let rs := flat_map section_record secs in
  List.length rs <= lines_of secs
  /\ list_sum (map addition_count rs) + list_sum (map deletion_count rs) <= lines_of secs.
Proof.
  unfold lines_of. induction secs as [|sec secs IH]; [cbn; lia|].
  cbn zeta in *. cbn [flat_map map]. rewrite !map_app, !list_sum_app, length_app.
  cbn [list_sum fold_right].
  fold (list_sum (map (fun sec => List.length (split_lines sec)) secs)).
  pose proof (changes_le_lines (split_lines sec)) as C.
  pose proof (split_lines_nonempty sec) as NE.
  assert (L : 1 <= List.length (split_lines sec))
    by (destruct (split_lines sec); [congruence | cbn; lia]).
  assert (S : section_record sec = [record_of sec] \/ section_record sec = []).
  { unfold section_record.
    destruct (truthy (strip sec) && truthy (_extract_file_path sec)); auto. }
  destruct S as [-> | ->];
    cbn [map list_sum fold_right List.length record_of addition_count deletion_count];
    unfold section_additions, section_deletions; lia.
Qed.

(** X9: the number of records, and the additions and deletions counted over
    all of them together, never exceed the number of lines of the text. *)
Theorem X9_counts_bounded (diff_text : str) :
  List.length (parse_diff diff_text) <= List.length (split_lines diff_text)
  /\ py_sum (map addition_count (parse_diff diff_text))
     + py_sum (map deletion_count (parse_diff diff_text))
     <= List.length (split_lines diff_text).
Proof.
  rewrite !py_sum_list_sum, parse_diff_sections, <- lines_of_sections.
  apply records_le_lines.
Qed.

(** * Beyond the claims: a header with nothing after [a/] *)

(** X10: when the first pattern matches with an empty path, [a/], white
    space, [b/] with no [a/] before it, the path of the section is empty
    whatever follows, a [+++ b/] line included: the second pattern is not
    tried, and a text that is this one section gives no record. *)
Theorem X10_empty_header_path (pre ws rest : str) :
  ~ occurs (lit "a/") pre -> ws <> [] -> forallb isspace ws = true ->
  _extract_file_path (pre ++ lit "a/" ++ ws ++ lit "b/" ++ rest) = []
  /\ (~ occurs boundary (pre ++ lit "a/" ++ ws ++ lit "b/" ++ rest) ->
      parse_diff (pre ++ lit "a/" ++ ws ++ lit "b/" ++ rest) = []).
Proof.
  intros N NE W.
  assert (P : _extract_file_path (pre ++ lit "a/" ++ ws ++ lit "b/" ++ rest) = [])
    by exact (extract_header_path pre [] ws rest N eq_refl NE W).
  split; [exact P|]. intros F.
  rewrite parse_diff_sections, re_split_eq, (find_sub_free _ _ F). cbn [flat_map].
  rewrite section_record_path, P. reflexivity.
Qed.

Lemma X10_empty_header_path_witness :
  _extract_file_path
    (lit "diff --git " ++ lit "a/" ++ lit " " ++ lit "b/" ++ (lit "x.py" ++ [nl] ++ lit "+++ b/x.py"))
  = [].
Proof.
  apply X10_empty_header_path.
  - apply find_sub_None. reflexivity.
  - discriminate.
  - reflexivity.
Defined.

(** * Beyond the claims: the changes of a text, line by line *)

(** X11: the changes of two texts put together with a newline between them
    are the changes of the first followed by the changes of the second, the
    additions and the deletions each on their own. *)
Theorem X11_extract_changes_app (x z : str) :
  _extract_changes (x ++ nl :: z)
  = (fst (_extract_changes x) ++ fst (_extract_changes z),
     snd (_extract_changes x) ++ snd (_extract_changes z)).
Proof.
  rewrite !extract_changes_classify. unfold section_additions, section_deletions.
  rewrite split_lines_app_nl, !flat_map_app. reflexivity.
Qed.

(** X12: a line that records no change can stand anywhere between two lines
    without a trace in what [_extract_changes] returns.  Such are the context
    lines, the hunk headers, the file markers, and also an added line whose
    own text begins with [++] or a removed line whose own text begins with
    [--]: it is taken for a file marker and not counted. *)
Theorem X12_ignored_line (x l z : str) :
  ~ In nl l -> change_line l = false ->
  _extract_changes (x ++ nl :: l ++ nl :: z) = _extract_changes (x ++ nl :: z).
Proof.
  intros N C. rewrite !extract_changes_classify.
  unfold section_additions, section_deletions.
  rewrite !split_lines_app_nl, (split_lines_one _ N), !flat_map_app. cbn [flat_map].
  unfold added at 2, deleted at 2. rewrite (classify_no_change _ C). reflexivity.
Qed.

Lemma X12_ignored_line_witness :
  _extract_changes (lit "+a" ++ nl :: lit "+++i;" ++ nl :: lit "-b")
  = _extract_changes (lit "+a" ++ nl :: lit "-b").
Proof.
  apply X12_ignored_line.
  - cbv. intuition discriminate.
  - reflexivity.
Defined.
